(** * scripts/utils/utils.py: retrying GET, conditional GitHub API fetch,
      Markdown link rewriting

    A shallow embedding of [request_get], [request_github_api] and
    [rewrite_markdown].  Python [str] and [bytes] values are modelled as
    [string] (the UTF-8 bytes: every character the code inspects is ASCII,
    and no byte of a multi-byte sequence is below 128), [int] as [Z],
    [dict] as [gmap], and the effects of the code (HTTP attempts, log
    records, the rate-limit report, the JSON decoding of a body) as a trace
    of events threaded through a state-and-exception monad. *)

From Stdlib Require Import ZArith Ascii String List Bool Lia.
From stdpp Require Import base option gmap strings.
Import ListNotations.

#[local] Set Warnings "-register-all".
Local Open Scope Z_scope.
Local Open Scope string_scope.
Local Open Scope list_scope.

(** ** Python values used by the code *)

(** The class of an exception, as far as the code tells classes apart:
    [requests.exceptions.ConnectionError] and [ssl.SSLError] are the two
    classes named by the [except] clause of [request_get]; an exception of
    a subclass of either has the class of that ancestor here, as it has for
    the clause. *)
Inductive exn_class : Type :=
  | ConnectionError
  | SSLError
  | KeyError
  | AttributeError
  | JSONDecodeError
  | PyException
  | OtherError (name : string).

(** An argument of [str.format]. *)
Inductive fmt_arg : Type :=
  | AInt (z : Z)
  | AStr (s : string)
  | ABytes (b : string)
  | ARepr (s : string)
  | AParams (p : option (gmap string string)).

(** A message built by [template.format(args)], kept unformatted. *)
Record message : Type := Fmt { template : string; fmt_args : list fmt_arg }.

Inductive exn_arg : Type :=
  | EKey (k : string)
  | EMsg (m : message)
  | EText (s : string).

Record exn : Type := Exn { exn_type : exn_class; exn_payload : exn_arg }.

(** What [json.loads] produces. *)
Inductive pyjson : Type :=
  | PNone
  | PBool (b : bool)
  | PNum (literal : string)
  | PStr (s : string)
  | PList (items : list pyjson)
  | PDict (items : list (string * pyjson)).

(** [requests.Response], the attributes the code reads.  [headers] is keyed
    by the header names the code asks for. *)
Record Response : Type := mkResponse {
  status_code : Z;
  headers : gmap string string;
  content : string
}.

(** The keyword arguments of one [requests.get] call. *)
Record get_request : Type := GetRequest {
  get_url : string;
  get_params : option (gmap string string);
  get_headers : option (gmap string string)
}.

(** What one [requests.get] call does: return a response or raise. *)
Inductive get_outcome : Type :=
  | Responds (r : Response)
  | Fails (e : exn).

Inductive event : Type :=
  | EvGet (req : get_request)
  | EvLogDebug (m : message)
  | EvLogError (m : message)
  | EvLogInfo (m : message)
  | EvRecordRateLimit (remaining limit : string)
  | EvJson (body : string).

Definition trace : Type := list event.

(** ** The monad: a trace, and a value or a raised exception *)

Inductive outcome (A : Type) : Type :=
  | Return (a : A)
  | Raise (e : exn).
Arguments Return {A} a.
Arguments Raise {A} e.

Definition M (A : Type) : Type := trace -> outcome A * trace.

Definition ret {A} (a : A) : M A := fun t => (Return a, t).
Definition raise {A} (e : exn) : M A := fun t => (Raise e, t).
Definition bind {A B} (m : M A) (k : A -> M B) : M B :=
  fun t => match m t with
           | (Return a, t') => k a t'
           | (Raise e, t') => (Raise e, t')
           end.
Definition emit (e : event) : M unit := fun t => (Return tt, t ++ [e]).
Definition when (b : bool) (m : M unit) : M unit := if b then m else ret tt.

(** [try: body  except <classes> as e: handler e]: an exception of another
    class passes through. *)
Definition try_except {A} (body : M A) (classes : exn -> bool) (handler : exn -> M A) : M A :=
  fun t => match body t with
           | (Return a, t') => (Return a, t')
           | (Raise e, t') => if classes e then handler e t' else (Raise e, t')
           end.

Declare Scope py_scope.
Delimit Scope py_scope with py.
Notation "x <- c1 ;; c2" := (bind c1 (fun x => c2))
  (at level 100, c1 at next level, right associativity) : py_scope.
Notation "c1 ;; c2" := (bind c1 (fun _ => c2))
  (at level 100, right associativity) : py_scope.

(** The number of [requests.get] calls recorded in a trace. *)
Definition is_get (e : event) : bool :=
  match e with EvGet _ => true | _ => false end.
Definition gets (t : trace) : nat := length (List.filter is_get t).

Definition is_report (e : event) : bool :=
  match e with EvRecordRateLimit _ _ => true | _ => false end.
Definition is_json (e : event) : bool :=
  match e with EvJson _ => true | _ => false end.
Definition reports (t : trace) : list event := List.filter is_report t.
Definition json_calls (t : trace) : list event := List.filter is_json t.
Definition sent (t : trace) : list get_request :=
  flat_map (fun e => match e with EvGet q => [q] | _ => [] end) t.

(** ** String helpers of Python used by the code *)

Definition tab : string := String (ascii_of_nat 9) "".

(** [s.startswith(p)] *)
Fixpoint startswith (s p : string) {struct p} : bool :=
  match p with
  | EmptyString => true
  | String b p' =>
      match s with
      | String a s' => Ascii.eqb a b && startswith s' p'
      | EmptyString => false
      end
  end.

(** [s[n:]] *)
Fixpoint slice_from (n : nat) (s : string) : string :=
  match n, s with
  | O, _ => s
  | S n', String _ s' => slice_from n' s'
  | S _, EmptyString => EmptyString
  end.

(** [range(n)] *)
Definition range (n : Z) : list Z := map Z.of_nat (seq 0 (Z.to_nat n)).

(** ** The module [common.constants] and the process environment *)

Record constants : Type := mkConstants {
  DEBUG_REQUEST_GET : bool;
  DEBUG_SHOW_RATE_LIMIT : bool
}.

(** [except (requests.exceptions.ConnectionError, ssl.SSLError)] *)
Definition caught (e : exn) : bool :=
  match exn_type e with
  | ConnectionError | SSLError => true
  | _ => false
  end.

(** [except KeyError] *)
Definition is_KeyError (e : exn) : bool :=
  match exn_type e with
  | KeyError => true
  | _ => false
  end.

(** [k.lower()] on the ASCII letters, the only ones a header name has. *)
Definition lower_char (a : ascii) : ascii :=
  let n := nat_of_ascii a in
  if ((65 <=? n) && (n <=? 90))%nat then ascii_of_nat (n + 32) else a.

Fixpoint lower (s : string) : string :=
  match s with
  | EmptyString => EmptyString
  | String a s' => String (lower_char a) (lower s')
  end.

(** [response.headers[k]]: the mapping of requests looks the name up in
    lower case, and the [KeyError] of a missing header carries the
    lower-cased name. *)
Definition header (r : Response) (k : string) : M string :=
  match headers r !! k with
  | Some v => ret v
  | None => raise (Exn KeyError (EKey (lower k)))
  end.

(** Modelled from the spec: [reporter.record_rate_limit] of [common.report]
    is the external rate-limit sink; a call to it is recorded with the pair
    it is given. *)
Definition record_rate_limit (remaining limit : string) : M unit :=
  emit (EvRecordRateLimit remaining limit).

Section Http.

(** [common.constants], [os.environ], the network behind [requests.get]
    (the outcome of a call may depend on how many calls came before it
    and on the request), and the decoder behind [Response.json]. *)
Variable consts : constants.
Variable environ : gmap string string.
Variable transport : nat -> get_request -> get_outcome.
Variable json_loads : string -> exn + pyjson.

(** [requests.get(url, params=params, proxies=constants.PROXIES,
    headers=headers)] *)
Definition requests_get (q : get_request) : M Response :=
  fun t => match transport (gets t) q with
           | Responds r => (Return r, t ++ [EvGet q])
           | Fails e => (Raise e, t ++ [EvGet q])
           end.

(** [response.json()] *)
Definition response_json (r : Response) : M pyjson :=
  (emit (EvJson (content r)) ;;
   match json_loads (content r) with
   | inl e => raise e
   | inr j => ret j
   end)%py.

(** The [for] loop of [request_get] over the remaining indices, with the
    current value of [err], followed by the statements after the loop.
    The function returns [None] when it falls off its end. *)
Fixpoint request_get_for (url : string) (hdrs params : option (gmap string string))
    (retries : Z) (idx : list Z) (err : option exn) : M (option Response) :=
  match idx with
  | [] =>
      match err with
      | Some e => raise e
      | None => ret None
      end
  | i :: rest =>
      (when (DEBUG_REQUEST_GET consts)
         (emit (EvLogDebug (Fmt (tab +:+ "Requesting {}/{} url={} params={}")
                                [AInt (i + 1); AInt retries; AStr url; AParams params]))) ;;
       try_except
         (r <- requests_get (GetRequest url params hdrs) ;; ret (Some r))
         caught
         (fun e => request_get_for url hdrs params retries rest (Some e)))%py
  end.

(** [request_get(url, *, headers=None, params=None, retries=3)] with
    [retries] given. *)
Definition request_get (url : string) (hdrs params : option (gmap string string))
    (retries : Z) : M (option Response) :=
  request_get_for url hdrs params retries (range (Z.max 1 retries)) None.

(** The same call with the keyword [retries] possibly left out. *)
Definition request_get_kw (url : string) (hdrs params : option (gmap string string))
    (retries : option Z) : M (option Response) :=
  request_get url hdrs params (default 3 retries).

(** The trace after the debug record, if any, of iteration [i] of the loop
    of [request_get]. *)
Definition after_debug (url : string) (params : option (gmap string string))
    (retries i : Z) (t : trace) : trace :=
  if DEBUG_REQUEST_GET consts
  then t ++ [EvLogDebug (Fmt (tab +:+ "Requesting {}/{} url={} params={}")
                             [AInt (i + 1); AInt retries; AStr url; AParams params])]
  else t.

(** What a run of the loop that made [made] attempts at [q] from trace [t]
    did: every attempt but the last failed with a caught error, and the
    last one decides the result.  A failure that is caught ends the run
    only when the [bound] on attempts is reached. *)
Definition loop_run (q : get_request) (t : trace) (bound made : nat)
    (res : outcome (option Response)) : Prop :=
  (1 <= made <= bound)%nat /\
  (forall k, (k < made - 1)%nat ->
     exists e, transport (gets t + k)%nat q = Fails e /\ caught e = true) /\
  match transport (gets t + (made - 1))%nat q with
  | Responds r => res = Return (Some r)
  | Fails e => res = Raise e /\ (caught e = true -> made = bound)
  end.

(** The request headers built at the start of [request_github_api]. *)
Definition api_headers (etag : string) : gmap string string :=
  let headers := {[ "If-None-Match" := etag ]} in
  match environ !! "github_api_token" with
  | Some token => <[ "Authorization" := "token " +:+ token ]> headers
  | None => headers
  end.

(** The statements of [request_github_api] after [request_get] returned. *)
Definition interpret (url : string) (params : option (gmap string string))
    (etag : string) (response : Response) : M (pyjson * string) :=
  (new_etag <- try_except (header response "ETag") is_KeyError
                 (fun e =>
                    emit (EvLogError
                            (Fmt "No ETag in response! url={}, params={} status_code={}, content={}"
                                 [AStr url; AParams params;
                                  AInt (status_code response); ABytes (content response)])) ;;
                    raise e) ;;
   remaining <- header response "X-RateLimit-Remaining" ;;
   limit <- header response "X-RateLimit-Limit" ;;
   record_rate_limit remaining limit ;;
   when (DEBUG_SHOW_RATE_LIMIT consts)
     (emit (EvLogDebug (Fmt (tab +:+ "RateLimit: {}/{}") [AStr remaining; AStr limit])) ;;
      emit (EvLogDebug (Fmt (tab +:+ "ETag: {} -> {}, url={}, params={}")
                            [AStr etag; AStr new_etag; AStr url; AParams params]))) ;;
   let new_etag := if startswith new_etag "W/" then slice_from 2 new_etag else new_etag in
   if (status_code response =? 304)%Z then ret (PNone, new_etag)
   else if negb (status_code response =? 200)%Z then
     raise (Exn PyException
              (EMsg (Fmt "Un-expected status code {}: {}"
                         [AInt (status_code response); ABytes (content response)])))
   else
     j <- response_json response ;;
     ret (j, new_etag))%py.

(** [request_github_api(url, *, params=None, etag='', retries=3)].  The
    first component of the result is [None] when the etag did not change.
    Were [request_get] to return [None], reading [response.headers] would
    raise. *)
Definition request_github_api (url : string) (params : option (gmap string string))
    (etag : string) (retries : Z) : M (pyjson * string) :=
  (response <- request_get url (Some (api_headers etag)) params retries ;;
   match response with
   | Some response => interpret url params etag response
   | None =>
       raise (Exn AttributeError (EText "'NoneType' object has no attribute 'headers'"))
   end)%py.

End Http.

(** ** Markdown rewriting *)

(** [s.rstrip(c)] for a one-character [c]: every trailing [c] is removed. *)
Fixpoint rstrip (c : ascii) (s : string) : string :=
  match s with
  | EmptyString => EmptyString
  | String a s' =>
      match rstrip c s' with
      | EmptyString => if Ascii.eqb a c then EmptyString else String a EmptyString
      | r => String a r
      end
  end.

Definition CR : ascii := ascii_of_nat 13.
Definition LF : ascii := ascii_of_nat 10.

(** [content.replace('\r\n', '\n')] *)
Fixpoint replace_crlf (s : string) : string :=
  match s with
  | EmptyString => EmptyString
  | String a s' =>
      match s' with
      | String b s'' =>
          if Ascii.eqb a CR && Ascii.eqb b LF
          then String LF (replace_crlf s'')
          else String a (replace_crlf s')
      | EmptyString => String a EmptyString
      end
  end.

(** [\w] under [re.ASCII]: a letter, a digit or the underscore. *)
Definition is_word (a : ascii) : bool :=
  let n := nat_of_ascii a in
  ((48 <=? n) && (n <=? 57) || (65 <=? n) && (n <=? 90)
   || (97 <=? n) && (n <=? 122) || (n =? 95))%nat.

(** The rest of a string after its longest prefix of word characters. *)
Fixpoint skip_word (s : string) : string :=
  match s with
  | String a s' => if is_word a then skip_word s' else s
  | EmptyString => s
  end.

(** [re.compile(r'^\w+://', re.ASCII).match(url)] as a truth value: one or
    more word characters (as many as there are, since [:] is not one), then
    [://]. *)
Definition pattern_match (url : string) : bool :=
  match url with
  | String a s' => is_word a && startswith (skip_word s') "://"
  | EmptyString => false
  end.

(** [url in ['', '.'] or url.startswith('#')] *)
Definition untouched (url : string) : bool :=
  String.eqb url "" || String.eqb url "." || startswith url "#".

(** The inner function [rewrite_url]. *)
Definition rewrite_url (url rewrite_base : string) : string :=
  if negb (pattern_match url) then
    if untouched url then url
    else rewrite_base +:+ "/" +:+ url
  else url.

(** The [log.info] record [rewrite_url] emits when it rewrites; the record
    names [repos_url] whichever base is used. *)
Definition rewrite_url_log (repos_url url rewrite_base : string) : list event :=
  if negb (pattern_match url) && negb (untouched url)
  then [EvLogInfo (Fmt "URL rewritten for {!r}: {!r} -> {!r}"
                       [ARepr repos_url; ARepr url; ARepr (rewrite_base +:+ "/" +:+ url)])]
  else [].

(** A node of the parsed document: [mistletoe.span_token.Image] with its
    [src], [mistletoe.span_token.Link] with its [target], or any other
    token, which may have no [children] attribute. *)
Inductive Token : Type :=
  | Image (src title : string) (children : list Token)
  | Link (target title : string) (children : list Token)
  | Node (kind text : string) (children : option (list Token)).

(** The inner function [rewrite_children]: the tree after the in-place
    updates. *)
Fixpoint rewrite_children (repos_url raw_url : string) (node : Token) : Token :=
  match node with
  | Image src title children =>
      Image (rewrite_url src raw_url) title
            (map (rewrite_children repos_url raw_url) children)
  | Link target title children =>
      Link (rewrite_url target repos_url) title
           (map (rewrite_children repos_url raw_url) children)
  | Node kind text (Some children) =>
      Node kind text (Some (map (rewrite_children repos_url raw_url) children))
  | Node kind text None => Node kind text None
  end.

(** The [log.info] records of one traversal, in the order of the visits. *)
Fixpoint rewrite_children_log (repos_url raw_url : string) (node : Token) : list event :=
  match node with
  | Image src _ children =>
      rewrite_url_log repos_url src raw_url
      ++ flat_map (rewrite_children_log repos_url raw_url) children
  | Link target _ children =>
      rewrite_url_log repos_url target repos_url
      ++ flat_map (rewrite_children_log repos_url raw_url) children
  | Node _ _ (Some children) => flat_map (rewrite_children_log repos_url raw_url) children
  | Node _ _ None => []
  end.

Section Markdown.

(** [mistletoe.Document(content)] and [MarkdownRenderer.render(doc)], the
    parser and the serializer of the mistletoe package. *)
Variable Document : string -> Token.
Variable render : Token -> string.

(** [rewrite_markdown(content, repos_url, raw_url)]; the lock only
    serializes concurrent calls. *)
Definition rewrite_markdown (content repos_url raw_url : string) : string :=
  let repos_url := rstrip "/" repos_url in
  let raw_url := rstrip "/" raw_url in
  let content := replace_crlf content in
  let doc := Document content in
  render (rewrite_children repos_url raw_url doc).

End Markdown.

(** ** Vocabulary of the specification *)

Inductive node_kind : Type := KImage | KLink.

(** The URLs of the image and link nodes of a tree, in traversal order. *)
Fixpoint urls (node : Token) : list (node_kind * string) :=
  match node with
  | Image src _ children => (KImage, src) :: flat_map urls children
  | Link target _ children => (KLink, target) :: flat_map urls children
  | Node _ _ (Some children) => flat_map urls children
  | Node _ _ None => []
  end.

Fixpoint all_word (s : string) : bool :=
  match s with
  | String a s' => is_word a && all_word s'
  | EmptyString => true
  end.

(** A URL matches [^\w+://]. *)
Definition scheme_qualified (url : string) : Prop :=
  exists w rest, w <> "" /\ all_word w = true /\ url = w +:+ "://" +:+ rest.

(** The rule of the specification for one URL [old] of a node of the given
    kind, rewritten to [new]. *)
Definition rewrite_rule (repoBaseUrl rawBaseUrl : string)
    (old new : node_kind * string) : Prop :=
  let base := match fst old with
              | KImage => rstrip "/" rawBaseUrl
              | KLink => rstrip "/" repoBaseUrl
              end in
  fst new = fst old /\
  (scheme_qualified (snd old) -> snd new = snd old) /\
  (snd old = "" \/ snd old = "." \/ startswith (snd old) "#" = true -> snd new = snd old) /\
  (~ scheme_qualified (snd old) -> snd old <> "" -> snd old <> "." ->
   startswith (snd old) "#" = false -> snd new = base +:+ "/" +:+ snd old).


(** The longest prefix of word characters of a string. *)
Fixpoint take_word (s : string) : string :=
  match s with
  | String a s' => if is_word a then String a (take_word s') else EmptyString
  | EmptyString => EmptyString
  end.

(** [n] copies of a character. *)
Fixpoint copies (n : nat) (c : ascii) : string :=
  match n with
  | O => EmptyString
  | S n' => String c (copies n' c)
  end.

(** The rewriting of one URL of a node of the given kind. *)
Definition rewrite_pair (repos_url raw_url : string) (p : node_kind * string)
    : node_kind * string :=
  (fst p, rewrite_url (snd p) (match fst p with KImage => raw_url | KLink => repos_url end)).

(** A tree with the URLs of its image and link nodes blanked: everything
    the traversal is not meant to touch. *)
Fixpoint skeleton (node : Token) : Token :=
  match node with
  | Image _ title children => Image "" title (map skeleton children)
  | Link _ title children => Link "" title (map skeleton children)
  | Node kind text (Some children) => Node kind text (Some (map skeleton children))
  | Node kind text None => Node kind text None
  end.

(** The normalization of the specification: an ETag that begins with the
    two characters [W/] loses them. *)
Definition strip_weak (etag : string) : string :=
  if startswith etag "W/" then slice_from 2 etag else etag.

(** The debug records [request_github_api] writes after the report to the
    sink; the second one shows the response's ETag as it was received. *)
Definition rate_limit_debug (consts : constants) (url : string)
    (params : option (gmap string string)) (etag new_etag remaining limit : string) : trace :=
  if DEBUG_SHOW_RATE_LIMIT consts
  then [EvLogDebug (Fmt (tab +:+ "RateLimit: {}/{}") [AStr remaining; AStr limit]);
        EvLogDebug (Fmt (tab +:+ "ETag: {} -> {}, url={}, params={}")
                        [AStr etag; AStr new_etag; AStr url; AParams params])]
  else [].

(** The record [request_github_api] logs when the ETag header is missing. *)
Definition no_etag_record (url : string) (params : option (gmap string string))
    (r : Response) : event :=
  EvLogError (Fmt "No ETag in response! url={}, params={} status_code={}, content={}"
                  [AStr url; AParams params; AInt (status_code r); ABytes (content r)]).

(** The exception [request_github_api] raises on a status other than 200
    and 304. *)
Definition unexpected_status (r : Response) : exn :=
  Exn PyException
      (EMsg (Fmt "Un-expected status code {}: {}"
                 [AInt (status_code r); ABytes (content r)])).

(** ** Concrete runs *)

(** A decoder that knows four JSON texts and rejects every other body. *)
Definition demo_json_loads (body : string) : exn + pyjson :=
  if String.eqb body "null" then inr PNone
  else if String.eqb body "true" then inr (PBool true)
  else if String.eqb body "[]" then inr (PList [])
  else if String.eqb body "{}" then inr (PDict [])
  else inl (Exn JSONDecodeError (EText "Expecting value")).

Definition quiet : constants := mkConstants false false.
Definition verbose : constants := mkConstants true true.

Definition rate_headers : gmap string string :=
  {[ "X-RateLimit-Remaining" := "4999"; "X-RateLimit-Limit" := "5000" ]}.

(** Responses with all three headers, without the rate-limit headers, and
    without the ETag header. *)
Definition full_response (status : Z) (etag body : string) : Response :=
  mkResponse status (<[ "ETag" := etag ]> rate_headers) body.
Definition bare_response (status : Z) (etag body : string) : Response :=
  mkResponse status {[ "ETag" := etag ]} body.
Definition untagged_response (status : Z) (body : string) : Response :=
  mkResponse status rate_headers body.

(** A network that always answers with the same response. *)
Definition always (r : Response) : nat -> get_request -> get_outcome :=
  fun _ _ => Responds r.

Definition connection_refused : exn := Exn ConnectionError (EText "Connection refused").
Definition handshake_failed : exn := Exn SSLError (EText "handshake failure").
Definition read_timeout : exn := Exn (OtherError "ReadTimeout") (EText "Read timed out").

(** A network whose first attempts fail as listed and which then answers
    with [r]. *)
Definition failing_first (errors : list exn) (r : Response) : nat -> get_request -> get_outcome :=
  fun n _ => match nth_error errors n with
             | Some e => Fails e
             | None => Responds r
             end.

(** A stand-in for the parser and the serializer of mistletoe on the
    documents that are one line holding one inline link, [[text](target)]
    and a line feed; any other content is kept as one text node. *)
Fixpoint split_on (c : ascii) (s : string) : option (string * string) :=
  match s with
  | EmptyString => None
  | String a s' =>
      if Ascii.eqb a c then Some (EmptyString, s')
      else match split_on c s' with
           | Some (l, r) => Some (String a l, r)
           | None => None
           end
  end.

Definition one_paragraph (inline : Token) : Token :=
  Node "Document" "" (Some [Node "Paragraph" "" (Some [inline])]).

Definition link_Document (content : string) : Token :=
  let plain := one_paragraph (Node "RawText" content None) in
  match content with
  | String a s1 =>
      if Ascii.eqb a "["
      then match split_on "]" s1 with
           | Some (text, String b s2) =>
               if Ascii.eqb b "("
               then match split_on ")" s2 with
                    | Some (target, rest) =>
                        if String.eqb rest (String LF "")
                        then one_paragraph (Link target "" [Node "RawText" text None])
                        else plain
                    | None => plain
                    end
               else plain
           | _ => plain
           end
      else plain
  | EmptyString => plain
  end.

Fixpoint link_render (node : Token) : string :=
  match node with
  | Link target _ children =>
      "[" +:+ String.concat "" (map link_render children) +:+ "](" +:+ target +:+ ")"
  | Image src _ children =>
      "![" +:+ String.concat "" (map link_render children) +:+ "](" +:+ src +:+ ")"
  | Node kind _ (Some children) =>
      String.concat "" (map link_render children)
      +:+ (if String.eqb kind "Paragraph" then String LF "" else "")
  | Node _ text None => text
  end.

(** The tree of [foo ![a](1.png)], a blank line and [[b](2.md)]. *)
Definition two_paragraphs : Token :=
  Node "Document" ""
    (Some [Node "Paragraph" ""
             (Some [Node "RawText" "foo " None; Image "1.png" "" [Node "RawText" "a" None]]);
           Node "Paragraph" "" (Some [Link "2.md" "" [Node "RawText" "b" None]])]).

(** ** The string helpers [remove_prefix], [remove_suffix], [format_markdown] *)

(** [text.find(sub)]: the lowest index at which [sub] occurs in [text], or
    [-1]. *)
Fixpoint find (text sub : string) {struct text} : Z :=
  if startswith text sub then 0
  else match text with
       | EmptyString => -1
       | String _ text' =>
           let i := find text' sub in
           if (i <? 0)%Z then -1 else i + 1
       end.

(** [text.rfind(sub)]: the highest index at which [sub] occurs in [text],
    or [-1]. *)
Fixpoint rfind (text sub : string) {struct text} : Z :=
  match text with
  | EmptyString => if startswith text sub then 0 else -1
  | String _ text' =>
      let i := rfind text' sub in
      if (i <? 0)%Z then (if startswith text sub then 0 else -1) else i + 1
  end.

(** [s[:n]] *)
Fixpoint slice_to (n : nat) (s : string) : string :=
  match n, s with
  | S n', String a s' => String a (slice_to n' s')
  | _, _ => EmptyString
  end.

(** [remove_prefix(text, prefix)] *)
Definition remove_prefix (text prefix : string) : string :=
  let pos := find text prefix in
  if (0 <=? pos)%Z
  then slice_from (Z.to_nat (pos + Z.of_nat (String.length prefix))) text
  else text.

(** [remove_suffix(text, suffix)] *)
Definition remove_suffix (text suffix : string) : string :=
  let pos := rfind text suffix in
  if (0 <=? pos)%Z then slice_to (Z.to_nat pos) text else text.

(** [text.replace(c, new)] for a one-character [c]. *)
Fixpoint replace_char (c : ascii) (new text : string) : string :=
  match text with
  | EmptyString => EmptyString
  | String a text' =>
      if Ascii.eqb a c then new +:+ replace_char c new text'
      else String a (replace_char c new text')
  end.

(** [format_markdown(text)]: the loop over the backslash, [<] and [>]. *)
Definition format_markdown (text : string) : string :=
  fold_left (fun text c => replace_char c (String "\" (String c "")) text)
            ["\"; "<"; ">"]%char text.

(** One character as [format_markdown] leaves it. *)
Definition escaped (a : ascii) : string :=
  if Ascii.eqb a "\" || Ascii.eqb a "<" || Ascii.eqb a ">"
  then String "\" (String a "")
  else String a "".

Fixpoint escape_all (text : string) : string :=
  match text with
  | EmptyString => EmptyString
  | String a text' => escaped a +:+ escape_all text'
  end.

(** ** [pretty_file_size] *)

(** The value of [size] during the loop: the [int] it starts as, or the
    [float] it becomes.  A float is kept as the exact quotient
    [m / 1024^k]; that is the value Python computes for an integer [m]
    below [2^53], which binary64 holds exactly and divides by [1024]
    without rounding. *)
Inductive number : Type :=
  | NInt (z : Z)
  | NFloat (m : Z) (k : nat).

(** [size < 2 ** 10] *)
Definition below_1024 (size : number) : bool :=
  match size with
  | NInt z => (z <? 1024)%Z
  | NFloat m k => (m <? 1024 * 1024 ^ Z.of_nat k)%Z
  end.

(** [size / 2 ** 10] *)
Definition div_1024 (size : number) : number :=
  match size with
  | NInt z => NFloat z 1
  | NFloat m k => NFloat m (S k)
  end.

Definition size_units : list string := ["B"; "KB"; "MB"; "GB"; "TB"].

(** The loop of [pretty_file_size] over the remaining units, with the
    current values of [size] and [unit]. *)
Fixpoint pretty_loop (units : list string) (size : number) (unit : string)
    : number * string :=
  match units with
  | [] => (size, unit)
  | c :: rest =>
      if below_1024 size then (size, c)
      else pretty_loop rest (div_1024 size) c
  end.

Section PrettyFileSize.

(** [str(round(x, 2))] *)
Variable str_round2 : number -> string.

(** [pretty_file_size(size)] *)
Definition pretty_file_size (size : Z) : string :=
  let (size, unit) := pretty_loop size_units (NInt size) "" in
  str_round2 size +:+ unit.

End PrettyFileSize.

(** ** Vocabulary for the further properties *)

(** [sub] occurs in [text] after [before]. *)
Definition occurs_at (text sub before : string) : Prop :=
  exists rest, text = before +:+ sub +:+ rest.

(** The events of one iteration of the loop of [request_get]. *)
Definition attempt_events (consts : constants) (url : string)
    (hdrs params : option (gmap string string)) (retries i : Z) : trace :=
  after_debug consts url params retries i [] ++ [EvGet (GetRequest url params hdrs)].

(** Lines joined by a separator, each line followed by it. *)
Fixpoint join_lines (sep : string) (lines : list string) : string :=
  match lines with
  | [] => EmptyString
  | l :: rest => l +:+ sep +:+ join_lines sep rest
  end.

Fixpoint has_char (c : ascii) (s : string) : bool :=
  match s with
  | EmptyString => false
  | String a s' => Ascii.eqb a c || has_char c s'
  end.

(** The base a node of the given kind is rewritten against. *)
Definition base_of (repos_url raw_url : string) (k : node_kind) : string :=
  match k with KImage => raw_url | KLink => repos_url end.

(** A stand-in for [str(round(x, 2))] that only tells an [int] from a
    [float]. *)
Definition show_number (x : number) : string :=
  match x with
  | NInt _ => "int"
  | NFloat _ _ => "float"
  end.
(** * Properties *)

(** ** Traces *)

Lemma gets_app (t1 t2 : trace) : gets (t1 ++ t2) = (gets t1 + gets t2)%nat.
Proof. unfold gets. rewrite List.filter_app, length_app. reflexivity. Qed.

Lemma sent_app (t1 t2 : trace) : sent (t1 ++ t2) = sent t1 ++ sent t2.
Proof. unfold sent. apply flat_map_app. Qed.

Lemma reports_app (t1 t2 : trace) : reports (t1 ++ t2) = reports t1 ++ reports t2.
Proof. unfold reports. apply List.filter_app. Qed.

Lemma json_calls_app (t1 t2 : trace) :
  json_calls (t1 ++ t2) = json_calls t1 ++ json_calls t2.
Proof. unfold json_calls. apply List.filter_app. Qed.

Lemma range_nonempty (retries : Z) : range (Z.max 1 retries) <> [].
Proof.
  unfold range. destruct (Z.to_nat (Z.max 1 retries)) eqn:E; [lia | discriminate].
Qed.

Lemma length_range (n : Z) : length (range n) = Z.to_nat n.
Proof. unfold range. rewrite length_map, length_seq. reflexivity. Qed.

(** ** The retry loop *)

Section RetryLoop.

Variable consts : constants.
Variable transport : nat -> get_request -> get_outcome.
Variables (url : string) (hdrs params : option (gmap string string)) (retries : Z).

Let q := GetRequest url params hdrs.
Local Abbreviation debugged := (after_debug consts url params retries).
Local Abbreviation run_of := (loop_run transport q).

Lemma request_get_for_nil (err : option exn) (t : trace) :
  request_get_for consts transport url hdrs params retries [] err t =
  (match err with Some e => Raise e | None => Return None end, t).
Proof. destruct err; reflexivity. Qed.

Lemma request_get_for_cons (i : Z) (rest : list Z) (err : option exn) (t : trace) :
  request_get_for consts transport url hdrs params retries (i :: rest) err t =
  match transport (gets (debugged i t)) q with
  | Responds r => (Return (Some r), debugged i t ++ [EvGet q])
  | Fails e =>
      if caught e
      then request_get_for consts transport url hdrs params retries rest (Some e)
             (debugged i t ++ [EvGet q])
      else (Raise e, debugged i t ++ [EvGet q])
  end.
Proof.
  cbn [request_get_for]. unfold after_debug, bind, when, try_except, requests_get, emit, ret.
  fold q. destruct (DEBUG_REQUEST_GET consts).
  - destruct (transport _ q) as [r|e]; [reflexivity|]. destruct (caught e); reflexivity.
  - destruct (transport _ q) as [r|e]; [reflexivity|]. destruct (caught e); reflexivity.
Qed.

Lemma gets_after_debug (i : Z) (t : trace) : gets (debugged i t) = gets t.
Proof.
  unfold after_debug. destruct (DEBUG_REQUEST_GET consts); [|reflexivity].
  rewrite gets_app. cbn. lia.
Qed.

Lemma sent_after_debug (i : Z) (t : trace) : sent (debugged i t) = sent t.
Proof.
  unfold after_debug. destruct (DEBUG_REQUEST_GET consts); [|reflexivity].
  rewrite sent_app. cbn. apply app_nil_r.
Qed.

Lemma request_get_for_run (idx : list Z) :
  forall (err : option exn) (t : trace),
    idx <> [] ->
    exists made,
      gets (snd (request_get_for consts transport url hdrs params retries idx err t))
        = (gets t + made)%nat /\
      sent (snd (request_get_for consts transport url hdrs params retries idx err t))
        = sent t ++ repeat q made /\
      run_of t (length idx) made
        (fst (request_get_for consts transport url hdrs params retries idx err t)).
Proof.
  induction idx as [|i rest IH]; intros err t Hne; [congruence|].
  rewrite request_get_for_cons.
  pose proof (gets_after_debug i t) as Hg. pose proof (sent_after_debug i t) as Hs.
  set (t1 := debugged i t) in *. clearbody t1. rewrite Hg.
  assert (Hg1 : gets (t1 ++ [EvGet q]) = (gets t + 1)%nat)
    by (rewrite gets_app, Hg; reflexivity).
  assert (Hs1 : sent (t1 ++ [EvGet q]) = sent t ++ [q])
    by (rewrite sent_app, Hs; reflexivity).
  destruct (transport (gets t) q) as [r|e] eqn:Ht.
  - exists 1%nat. cbn [fst snd length].
    split; [exact Hg1|]. split; [exact Hs1|].
    split; [lia|]. split; [intros k Hk; lia|].
    cbn [Nat.sub]. rewrite Nat.add_0_r, Ht. reflexivity.
  - destruct (caught e) eqn:Hc.
    + destruct rest as [|i' rest'].
      * rewrite request_get_for_nil. exists 1%nat. cbn [fst snd length].
        split; [exact Hg1|]. split; [exact Hs1|].
        split; [lia|]. split; [intros k Hk; lia|].
        cbn [Nat.sub]. rewrite Nat.add_0_r, Ht. split; reflexivity.
      * destruct (IH (Some e) (t1 ++ [EvGet q])) as (made & G & Sn & (B & P & L));
          [discriminate|].
        exists (S made). rewrite G, Sn, Hg1, Hs1.
        split; [lia|]. split; [rewrite <- app_assoc; reflexivity|].
        split; [cbn [length] in *; lia|]. split.
        -- intros k Hk. destruct k as [|k].
           ++ exists e. rewrite Nat.add_0_r. split; assumption.
           ++ destruct (P k) as (e' & He' & Hc'); [lia|].
              exists e'. split; [|assumption].
              rewrite <- He', Hg1. f_equal. lia.
        -- rewrite Hg1 in L.
           replace (gets t + (S made - 1))%nat with (gets t + 1 + (made - 1))%nat by lia.
           destruct (transport (gets t + 1 + (made - 1)) q) as [r'|e'].
           ++ assumption.
           ++ destruct L as [L1 L2]. split; [assumption|].
              intros Hc'. cbn [length] in *. rewrite (L2 Hc'). reflexivity.
    + exists 1%nat. cbn [fst snd length].
      split; [exact Hg1|]. split; [exact Hs1|].
      split; [lia|]. split; [intros k Hk; lia|].
      cbn [Nat.sub]. rewrite Nat.add_0_r, Ht. split; [reflexivity|].
      intros Hc'. congruence.
Qed.

Lemma reports_after_debug (i : Z) (t : trace) : reports (debugged i t) = reports t.
Proof.
  unfold after_debug. destruct (DEBUG_REQUEST_GET consts); [|reflexivity].
  rewrite reports_app. cbn. apply app_nil_r.
Qed.

Lemma json_calls_after_debug (i : Z) (t : trace) :
  json_calls (debugged i t) = json_calls t.
Proof.
  unfold after_debug. destruct (DEBUG_REQUEST_GET consts); [|reflexivity].
  rewrite json_calls_app. cbn. apply app_nil_r.
Qed.

(** The loop reports nothing to the rate-limit sink and decodes no body. *)
Lemma request_get_for_quiet (idx : list Z) :
  forall (err : option exn) (t : trace),
    reports (snd (request_get_for consts transport url hdrs params retries idx err t))
      = reports t /\
    json_calls (snd (request_get_for consts transport url hdrs params retries idx err t))
      = json_calls t.
Proof.
  induction idx as [|i rest IH]; intros err t.
  - rewrite request_get_for_nil. split; reflexivity.
  - rewrite request_get_for_cons.
    assert (Hr : reports (debugged i t ++ [EvGet q]) = reports t)
      by (rewrite reports_app, reports_after_debug; cbn; apply app_nil_r).
    assert (Hj : json_calls (debugged i t ++ [EvGet q]) = json_calls t)
      by (rewrite json_calls_app, json_calls_after_debug; cbn; apply app_nil_r).
    destruct (transport _ q) as [r|e]; [split; assumption|].
    destruct (caught e); [|split; assumption].
    destruct (IH (Some e) (debugged i t ++ [EvGet q])) as [IH1 IH2].
    rewrite IH1, IH2. split; assumption.
Qed.

End RetryLoop.

(** ** The interpretation of a response *)

Section Fetch.

Variable consts : constants.
Variable environ : gmap string string.
Variable transport : nat -> get_request -> get_outcome.
Variable json_loads : string -> exn + pyjson.
Variables (url : string) (params : option (gmap string string)) (etag : string).

Lemma request_github_api_after_get (retries : Z) (t t1 : trace) (r : Response) :
  request_get consts transport url (Some (api_headers environ etag)) params retries t
    = (Return (Some r), t1) ->
  request_github_api consts environ transport json_loads url params etag retries t
    = interpret consts json_loads url params etag r t1.
Proof.
  intros H. unfold request_github_api, bind. rewrite H. reflexivity.
Qed.

Lemma interpret_no_etag (r : Response) (t : trace) :
  headers r !! "ETag" = None ->
  interpret consts json_loads url params etag r t
    = (Raise (Exn KeyError (EKey "etag")), t ++ [no_etag_record url params r]).
Proof.
  intros H. unfold interpret, bind, try_except, header. rewrite H. reflexivity.
Qed.

Lemma interpret_no_remaining (r : Response) (t : trace) (e : string) :
  headers r !! "ETag" = Some e ->
  headers r !! "X-RateLimit-Remaining" = None ->
  interpret consts json_loads url params etag r t
    = (Raise (Exn KeyError (EKey "x-ratelimit-remaining")), t).
Proof.
  intros H1 H2. unfold interpret, bind, try_except, header. rewrite H1, H2. reflexivity.
Qed.

Lemma interpret_no_limit (r : Response) (t : trace) (e rem : string) :
  headers r !! "ETag" = Some e ->
  headers r !! "X-RateLimit-Remaining" = Some rem ->
  headers r !! "X-RateLimit-Limit" = None ->
  interpret consts json_loads url params etag r t
    = (Raise (Exn KeyError (EKey "x-ratelimit-limit")), t).
Proof.
  intros H1 H2 H3. unfold interpret, bind, try_except, header.
  rewrite H1, H2, H3. reflexivity.
Qed.

Lemma interpret_full (r : Response) (t : trace) (e rem lim : string) :
  headers r !! "ETag" = Some e ->
  headers r !! "X-RateLimit-Remaining" = Some rem ->
  headers r !! "X-RateLimit-Limit" = Some lim ->
  interpret consts json_loads url params etag r t
    = let t1 := t ++ EvRecordRateLimit rem lim
                     :: rate_limit_debug consts url params etag e rem lim in
      if (status_code r =? 304)%Z then (Return (PNone, strip_weak e), t1)
      else if negb (status_code r =? 200)%Z then (Raise (unexpected_status r), t1)
      else (match json_loads (content r) with
            | inl x => Raise x
            | inr j => Return (j, strip_weak e)
            end, t1 ++ [EvJson (content r)]).
Proof.
  intros H1 H2 H3.
  unfold interpret, response_json, record_rate_limit, bind, try_except, header,
    rate_limit_debug, when, bind, emit, ret, raise, strip_weak, unexpected_status.
  rewrite H1, H2, H3. cbn zeta.
  destruct (DEBUG_SHOW_RATE_LIMIT consts);
    destruct (status_code r =? 304)%Z;
    destruct (status_code r =? 200)%Z;
    destruct (json_loads (content r));
    cbn [negb]; rewrite <- ?app_assoc; cbn [app]; reflexivity.
Qed.

End Fetch.

(** ** [request_get] *)

(** The [except] clause catches the two classes it names and no other. *)
Lemma caught_classes (e : exn) :
  caught e = true <-> exn_type e = ConnectionError \/ exn_type e = SSLError.
Proof.
  unfold caught. destruct (exn_type e); split; intros H;
    try reflexivity; try discriminate H; auto; destruct H as [H|H]; discriminate H.
Qed.

(** C4: [request_get] makes at least one and at most [max(1, retries)] GET
    attempts, [retries] being 3 when the keyword is left out; every attempt
    is the same request; every attempt before the last one failed with a
    [ConnectionError] or an [SSLError], so that an exception of any other
    class ends the call at the attempt that raised it; a response of the
    last attempt is returned, an exception of the last attempt is raised as
    it is, and when that exception is a [ConnectionError] or an [SSLError]
    all [max(1, retries)] attempts were made. *)
Theorem request_get_attempts (consts : constants)
    (transport : nat -> get_request -> get_outcome)
    (url : string) (hdrs params : option (gmap string string))
    (retries : option Z) (t : trace) :
  let q := GetRequest url params hdrs in
  let bound := Z.to_nat (Z.max 1 (default 3 retries)) in
  let run := request_get_kw consts transport url hdrs params retries t in
  exists made : nat,
    gets (snd run) = (gets t + made)%nat /\
    sent (snd run) = sent t ++ repeat q made /\
    (1 <= made <= bound)%nat /\
    (forall k, (k < made - 1)%nat ->
       exists e, transport (gets t + k)%nat q = Fails e /\
                 (exn_type e = ConnectionError \/ exn_type e = SSLError)) /\
    (forall k e, (k < made)%nat -> transport (gets t + k)%nat q = Fails e ->
       exn_type e <> ConnectionError -> exn_type e <> SSLError ->
       k = (made - 1)%nat /\ fst run = Raise e) /\
    match transport (gets t + (made - 1))%nat q with
    | Responds r => fst run = Return (Some r)
    | Fails e =>
        fst run = Raise e /\
        (exn_type e = ConnectionError \/ exn_type e = SSLError -> made = bound)
    end.
Proof.
  intros q bound run. subst run. unfold request_get_kw, request_get.
  destruct (request_get_for_run consts transport url hdrs params (default 3 retries)
              (range (Z.max 1 (default 3 retries))) None t
              (range_nonempty (default 3 retries))) as (made & G & Sn & B & P & L).
  rewrite length_range in B, L. fold q bound in P, L, B.
  exists made. split; [exact G|]. split; [exact Sn|]. split; [exact B|].
  split; [|split].
  - intros k Hk. destruct (P k Hk) as (e & He & Hc).
    exists e. split; [exact He | apply caught_classes, Hc].
  - intros k e Hk He H1 H2.
    assert (Hlast : k = (made - 1)%nat).
    { destruct (Nat.eq_dec k (made - 1)%nat) as [E|E]; [exact E|].
      destruct (P k) as (e' & He' & Hc'); [lia|].
      rewrite He in He'. injection He' as <-.
      apply caught_classes in Hc' as [Hc'|Hc']; contradiction. }
    split; [exact Hlast|]. subst k. rewrite He in L. exact (proj1 L).
  - destruct (transport (gets t + (made - 1))%nat q) as [r|e]; [exact L|].
    destruct L as [L1 L2]. split; [exact L1|].
    intros Hc. apply L2, caught_classes, Hc.
Qed.

(** C9: for every value of [retries] the loop of [request_get] has at least
    one iteration, the call makes at least one GET attempt, and its result
    is a response or a raised exception, never the [None] that falling off
    the end of the function gives; that [None] needs an empty loop with no
    recorded error. *)
Theorem request_get_never_none (consts : constants)
    (transport : nat -> get_request -> get_outcome)
    (url : string) (hdrs params : option (gmap string string))
    (retries : Z) (t : trace) :
  let run := request_get consts transport url hdrs params retries t in
  range (Z.max 1 retries) <> [] /\
  (gets t < gets (snd run))%nat /\
  fst run <> Return None /\
  ((exists r, fst run = Return (Some r)) \/ (exists e, fst run = Raise e)) /\
  fst (request_get_for consts transport url hdrs params retries [] None t) = Return None.
Proof.
  intros run. subst run. unfold request_get.
  destruct (request_get_for_run consts transport url hdrs params retries
              (range (Z.max 1 retries)) None t (range_nonempty retries))
    as (made & G & _ & B & _ & L).
  split; [apply range_nonempty|]. split; [lia|].
  destruct (transport (gets t + (made - 1))%nat (GetRequest url params hdrs)) as [r|e].
  - rewrite L. split; [discriminate|]. split; [left; eauto | reflexivity].
  - destruct L as [L _]. rewrite L. split; [discriminate|].
    split; [right; eauto | reflexivity].
Qed.

Lemma request_get_attempts_witness :
  let run := request_get_kw verbose
               (failing_first [connection_refused; handshake_failed; connection_refused]
                  (full_response 200 "abc" "{}"))
               "u" None None None [] in
  fst run = Raise connection_refused /\ gets (snd run) = 3%nat.
Proof.
  intros run.
  destruct (request_get_attempts verbose
              (failing_first [connection_refused; handshake_failed; connection_refused]
                 (full_response 200 "abc" "{}"))
              "u" None None None []) as (made & G & _ & B & _ & _ & L).
  fold run in G, L. cbn zeta in B, L.
  assert (Hmade : made = 3%nat).
  { destruct made as [|[|[|[|m]]]]; try reflexivity;
      try (exfalso; vm_compute in B; lia);
      vm_compute in L; destruct L as [_ L];
      first [specialize (L (or_introl eq_refl)) | specialize (L (or_intror eq_refl))];
      vm_compute in L; discriminate L. }
  subst made. split; [|exact G].
  vm_compute in L. exact (proj1 L).
Defined.

(** Two connection failures and then a response, with the default budget
    of three attempts: the response is returned. *)
Example request_get_third_attempt :
  let r := full_response 200 "abc" "{}" in
  let run := request_get_kw quiet (failing_first [connection_refused; handshake_failed] r)
               "u" None None None [] in
  fst run = Return (Some r) /\ gets (snd run) = 3%nat.
Proof. vm_compute. split; reflexivity. Qed.

(** An exception of another class on the first attempt ends the call. *)
Example request_get_other_exception :
  let run := request_get_kw quiet (failing_first [read_timeout] (full_response 200 "abc" "{}"))
               "u" None None None [] in
  fst run = Raise read_timeout /\ gets (snd run) = 1%nat.
Proof. vm_compute. split; reflexivity. Qed.

(** A budget below one is one attempt, and the caught error comes back. *)
Example request_get_clamped :
  let run := request_get_kw quiet
               (failing_first [handshake_failed; connection_refused] (full_response 200 "abc" "{}"))
               "u" None None (Some (-2)) [] in
  fst run = Raise handshake_failed /\ gets (snd run) = 1%nat.
Proof. vm_compute. split; reflexivity. Qed.

(** What a call of [request_get] that returned a response left in the
    trace. *)
Lemma request_get_returned (consts : constants)
    (transport : nat -> get_request -> get_outcome)
    (url : string) (hdrs params : option (gmap string string))
    (retries : Z) (t t1 : trace) (r : Response) :
  request_get consts transport url hdrs params retries t = (Return (Some r), t1) ->
  reports t1 = reports t /\
  json_calls t1 = json_calls t /\
  exists made, sent t1 = sent t ++ repeat (GetRequest url params hdrs) made.
Proof.
  intros H. unfold request_get in H.
  destruct (request_get_for_quiet consts transport url hdrs params retries
              (range (Z.max 1 retries)) None t) as [Q1 Q2].
  destruct (request_get_for_run consts transport url hdrs params retries
              (range (Z.max 1 retries)) None t (range_nonempty retries))
    as (made & _ & Sn & _).
  rewrite H in Q1, Q2, Sn. cbn [snd] in *.
  split; [exact Q1|]. split; [exact Q2|]. exists made. exact Sn.
Qed.

(** ** [request_github_api] *)

Lemma strip_weak_marked (rest : string) : strip_weak ("W/" +:+ rest) = rest.
Proof. reflexivity. Qed.

Lemma strip_weak_unmarked (e : string) : startswith e "W/" = false -> strip_weak e = e.
Proof. intros H. unfold strip_weak. rewrite H. reflexivity. Qed.

Lemma gets_rate_limit_debug consts url params etag e rem lim :
  gets (rate_limit_debug consts url params etag e rem lim) = 0%nat.
Proof. unfold rate_limit_debug. destruct (DEBUG_SHOW_RATE_LIMIT consts); reflexivity. Qed.

Lemma sent_rate_limit_debug consts url params etag e rem lim :
  sent (rate_limit_debug consts url params etag e rem lim) = [].
Proof. unfold rate_limit_debug. destruct (DEBUG_SHOW_RATE_LIMIT consts); reflexivity. Qed.

Lemma reports_rate_limit_debug consts url params etag e rem lim :
  reports (rate_limit_debug consts url params etag e rem lim) = [].
Proof. unfold rate_limit_debug. destruct (DEBUG_SHOW_RATE_LIMIT consts); reflexivity. Qed.

Lemma json_calls_rate_limit_debug consts url params etag e rem lim :
  json_calls (rate_limit_debug consts url params etag e rem lim) = [].
Proof. unfold rate_limit_debug. destruct (DEBUG_SHOW_RATE_LIMIT consts); reflexivity. Qed.

(** The run of [interpret] on a response with the three headers, by
    status. *)
Lemma interpret_304 consts json_loads url params etag r t e rem lim :
  headers r !! "ETag" = Some e ->
  headers r !! "X-RateLimit-Remaining" = Some rem ->
  headers r !! "X-RateLimit-Limit" = Some lim ->
  status_code r = 304 ->
  interpret consts json_loads url params etag r t
    = (Return (PNone, strip_weak e),
       t ++ EvRecordRateLimit rem lim :: rate_limit_debug consts url params etag e rem lim).
Proof.
  intros H1 H2 H3 Hs. rewrite (interpret_full _ _ _ _ _ _ _ _ _ _ H1 H2 H3).
  cbn zeta. rewrite Hs. reflexivity.
Qed.

Lemma interpret_200 consts json_loads url params etag r t e rem lim :
  headers r !! "ETag" = Some e ->
  headers r !! "X-RateLimit-Remaining" = Some rem ->
  headers r !! "X-RateLimit-Limit" = Some lim ->
  status_code r = 200 ->
  interpret consts json_loads url params etag r t
    = (match json_loads (content r) with
       | inl x => Raise x
       | inr j => Return (j, strip_weak e)
       end,
       (t ++ EvRecordRateLimit rem lim :: rate_limit_debug consts url params etag e rem lim)
       ++ [EvJson (content r)]).
Proof.
  intros H1 H2 H3 Hs. rewrite (interpret_full _ _ _ _ _ _ _ _ _ _ H1 H2 H3).
  cbn zeta. rewrite Hs. reflexivity.
Qed.

Lemma interpret_other consts json_loads url params etag r t e rem lim :
  headers r !! "ETag" = Some e ->
  headers r !! "X-RateLimit-Remaining" = Some rem ->
  headers r !! "X-RateLimit-Limit" = Some lim ->
  status_code r <> 304 -> status_code r <> 200 ->
  interpret consts json_loads url params etag r t
    = (Raise (unexpected_status r),
       t ++ EvRecordRateLimit rem lim :: rate_limit_debug consts url params etag e rem lim).
Proof.
  intros H1 H2 H3 Hs Hs'. rewrite (interpret_full _ _ _ _ _ _ _ _ _ _ H1 H2 H3).
  cbn zeta.
  destruct (Z.eqb_spec (status_code r) 304) as [|_]; [contradiction|].
  destruct (Z.eqb_spec (status_code r) 200) as [|_]; [contradiction|].
  reflexivity.
Qed.

(** The three statuses cover every response. *)
Lemma status_cases (r : Response) :
  status_code r = 304 \/ status_code r = 200 \/
  (status_code r <> 304 /\ status_code r <> 200).
Proof. lia. Qed.

Ltac trace_facts :=
  cbn [fst snd];
  rewrite ?gets_app, ?sent_app, ?reports_app, ?json_calls_app;
  change (?a :: ?l) with ([a] ++ l);
  rewrite ?gets_app, ?sent_app, ?reports_app, ?json_calls_app,
    ?gets_rate_limit_debug, ?sent_rate_limit_debug, ?reports_rate_limit_debug,
    ?json_calls_rate_limit_debug;
  cbn.

(** C1, as the code has it: when the response carries the ETag header and
    both rate-limit headers, status 304 gives [(None, new_etag)] and the
    body is not decoded; status 200 decodes the body once and gives
    [(decoded body, new_etag)], or the decoder's exception when the body is
    not JSON; any other status raises an exception built from the status
    code and the raw body; in every case no GET follows the response. *)
Theorem fetch_status_interpretation (consts : constants) (environ : gmap string string)
    (transport : nat -> get_request -> get_outcome) (json_loads : string -> exn + pyjson)
    (url : string) (params : option (gmap string string)) (etag : string) (retries : Z)
    (t t1 : trace) (r : Response) (e rem lim : string) :
  request_get consts transport url (Some (api_headers environ etag)) params retries t
    = (Return (Some r), t1) ->
  headers r !! "ETag" = Some e ->
  headers r !! "X-RateLimit-Remaining" = Some rem ->
  headers r !! "X-RateLimit-Limit" = Some lim ->
  let run := request_github_api consts environ transport json_loads url params etag retries t in
  let new_etag := if startswith e "W/" then slice_from 2 e else e in
  gets (snd run) = gets t1 /\
  (status_code r = 304 ->
     fst run = Return (PNone, new_etag) /\ json_calls (snd run) = json_calls t) /\
  (status_code r = 200 ->
     fst run = match json_loads (content r) with
               | inr j => Return (j, new_etag)
               | inl x => Raise x
               end /\
     json_calls (snd run) = json_calls t ++ [EvJson (content r)]) /\
  (status_code r <> 304 -> status_code r <> 200 ->
     fst run = Raise (Exn PyException
                        (EMsg (Fmt "Un-expected status code {}: {}"
                                   [AInt (status_code r); ABytes (content r)]))) /\
     json_calls (snd run) = json_calls t).
Proof.
  intros Hget H1 H2 H3 run new_etag. subst run new_etag.
  rewrite (request_github_api_after_get _ _ _ _ _ _ _ _ _ _ _ Hget).
  destruct (request_get_returned _ _ _ _ _ _ _ _ _ Hget) as (_ & Hj & _).
  fold (strip_weak e).
  split; [|split; [|split]].
  - destruct (status_cases r) as [Hs|[Hs|[Hs Hs']]].
    + rewrite (interpret_304 _ _ _ _ _ _ _ _ _ _ H1 H2 H3 Hs). trace_facts. lia.
    + rewrite (interpret_200 _ _ _ _ _ _ _ _ _ _ H1 H2 H3 Hs). trace_facts. lia.
    + rewrite (interpret_other _ _ _ _ _ _ _ _ _ _ H1 H2 H3 Hs Hs'). trace_facts. lia.
  - intros Hs. rewrite (interpret_304 _ _ _ _ _ _ _ _ _ _ H1 H2 H3 Hs).
    split; [reflexivity|]. trace_facts. rewrite Hj. apply app_nil_r.
  - intros Hs. rewrite (interpret_200 _ _ _ _ _ _ _ _ _ _ H1 H2 H3 Hs).
    split; [destruct (json_loads (content r)); reflexivity|].
    trace_facts. rewrite Hj, app_nil_r. reflexivity.
  - intros Hs Hs'. rewrite (interpret_other _ _ _ _ _ _ _ _ _ _ H1 H2 H3 Hs Hs').
    split; [reflexivity|]. trace_facts. rewrite Hj. apply app_nil_r.
Qed.

Lemma fetch_status_interpretation_witness :
  let r := full_response 304 "W/abc" "" in
  let run := request_github_api quiet ∅ (always r) demo_json_loads "u" None "" 3 [] in
  headers r !! "ETag" = Some "W/abc" /\ status_code r = 304 /\
  fst run = Return (PNone, "abc") /\ json_calls (snd run) = [].
Proof.
  intros r run.
  assert (Hget : request_get quiet (always r) "u" (Some (api_headers ∅ "")) None 3 []
                 = (Return (Some r), [EvGet (GetRequest "u" None (Some (api_headers ∅ "")))]))
    by (vm_compute; reflexivity).
  assert (H1 : headers r !! "ETag" = Some "W/abc") by (vm_compute; reflexivity).
  assert (H2 : headers r !! "X-RateLimit-Remaining" = Some "4999") by (vm_compute; reflexivity).
  assert (H3 : headers r !! "X-RateLimit-Limit" = Some "5000") by (vm_compute; reflexivity).
  destruct (fetch_status_interpretation quiet ∅ (always r) demo_json_loads "u" None "" 3
              [] _ r "W/abc" "4999" "5000" Hget H1 H2 H3) as (_ & H304 & _).
  destruct (H304 eq_refl) as [Hres Hjson].
  split; [exact H1|]. split; [reflexivity|]. split; [exact Hres | exact Hjson].
Defined.

(** A 200 response whose body is the JSON text [null] gives the pair that a
    304 response gives. *)
Example fetch_200_null_body :
  fst (request_github_api quiet ∅ (always (full_response 200 "abc" "null")) demo_json_loads
         "u" None "" 3 [])
  = fst (request_github_api quiet ∅ (always (full_response 304 "abc" "")) demo_json_loads
           "u" None "" 3 []).
Proof. vm_compute. reflexivity. Qed.

(** C1 as stated fails: a 304 response that carries the ETag header but no
    rate-limit header does not give [(None, new_etag)]; the call raises
    [KeyError]. *)
Lemma fetch_304_without_rate_limit_headers :
  let r := bare_response 304 "abc" "" in
  let run := request_github_api quiet ∅ (always r) demo_json_loads "u" None "" 3 [] in
  headers r !! "ETag" = Some "abc" /\ status_code r = 304 /\
  fst run = Raise (Exn KeyError (EKey "x-ratelimit-remaining")) /\
  fst run <> Return (PNone, "abc").
Proof.
  vm_compute. split; [reflexivity|]. split; [reflexivity|]. split; [reflexivity|].
  discriminate.
Qed.

Lemma api_headers_if_none_match (environ : gmap string string) (etag : string) :
  api_headers environ etag !! "If-None-Match" = Some etag.
Proof.
  unfold api_headers. destruct (environ !! "github_api_token").
  - rewrite lookup_insert_ne by discriminate. apply lookup_singleton_eq.
  - apply lookup_singleton_eq.
Qed.

(** C2, as the code has it: the ETag of the response loses one leading [W/]
    before it is returned, with status 304 as with status 200; the etag the
    caller supplies is sent in [If-None-Match] as it is on every attempt. *)
Theorem response_etag_stripped (consts : constants) (environ : gmap string string)
    (transport : nat -> get_request -> get_outcome) (json_loads : string -> exn + pyjson)
    (url : string) (params : option (gmap string string)) (etag : string) (retries : Z)
    (t t1 : trace) (r : Response) (e rem lim : string) :
  request_get consts transport url (Some (api_headers environ etag)) params retries t
    = (Return (Some r), t1) ->
  headers r !! "ETag" = Some e ->
  headers r !! "X-RateLimit-Remaining" = Some rem ->
  headers r !! "X-RateLimit-Limit" = Some lim ->
  let run := request_github_api consts environ transport json_loads url params etag retries t in
  let new_etag := if startswith e "W/" then slice_from 2 e else e in
  (forall rest, e = "W/" +:+ rest -> new_etag = rest) /\
  (startswith e "W/" = false -> new_etag = e) /\
  (status_code r = 304 -> fst run = Return (PNone, new_etag)) /\
  (status_code r = 200 ->
     forall j, json_loads (content r) = inr j -> fst run = Return (j, new_etag)) /\
  (forall payload returned, fst run = Return (payload, returned) -> returned = new_etag) /\
  (exists made,
     sent (snd run)
       = sent t ++ repeat (GetRequest url params (Some (api_headers environ etag))) made) /\
  api_headers environ etag !! "If-None-Match" = Some etag.
Proof.
  intros Hget H1 H2 H3 run new_etag. subst run new_etag.
  rewrite (request_github_api_after_get _ _ _ _ _ _ _ _ _ _ _ Hget).
  destruct (request_get_returned _ _ _ _ _ _ _ _ _ Hget) as (_ & _ & made & Hsent).
  fold (strip_weak e).
  split; [intros rest ->; apply strip_weak_marked|].
  split; [apply strip_weak_unmarked|].
  split; [intros Hs; rewrite (interpret_304 _ _ _ _ _ _ _ _ _ _ H1 H2 H3 Hs); reflexivity|].
  split; [intros Hs j Hj; rewrite (interpret_200 _ _ _ _ _ _ _ _ _ _ H1 H2 H3 Hs), Hj;
          reflexivity|].
  split; [|split; [|apply api_headers_if_none_match]].
  - intros payload returned.
    destruct (status_cases r) as [Hs|[Hs|[Hs Hs']]].
    + rewrite (interpret_304 _ _ _ _ _ _ _ _ _ _ H1 H2 H3 Hs). cbn [fst]. congruence.
    + rewrite (interpret_200 _ _ _ _ _ _ _ _ _ _ H1 H2 H3 Hs). cbn [fst].
      destruct (json_loads (content r)); congruence.
    + rewrite (interpret_other _ _ _ _ _ _ _ _ _ _ H1 H2 H3 Hs Hs'). cbn [fst]. congruence.
  - exists made.
    destruct (status_cases r) as [Hs|[Hs|[Hs Hs']]].
    + rewrite (interpret_304 _ _ _ _ _ _ _ _ _ _ H1 H2 H3 Hs). trace_facts.
      rewrite Hsent, app_nil_r. reflexivity.
    + rewrite (interpret_200 _ _ _ _ _ _ _ _ _ _ H1 H2 H3 Hs). trace_facts.
      rewrite Hsent, !app_nil_r. reflexivity.
    + rewrite (interpret_other _ _ _ _ _ _ _ _ _ _ H1 H2 H3 Hs Hs'). trace_facts.
      rewrite Hsent, app_nil_r. reflexivity.
Qed.

Lemma response_etag_stripped_witness :
  let r := full_response 200 "W/abc" "{}" in
  let run := request_github_api verbose ∅ (always r) demo_json_loads "u" None "W/old" 3 [] in
  fst run = Return (PDict [], "abc").
Proof.
  intros r run.
  assert (Hget : request_get verbose (always r) "u" (Some (api_headers ∅ "W/old")) None 3 []
                 = (Return (Some r), snd (request_get verbose (always r) "u"
                                            (Some (api_headers ∅ "W/old")) None 3 [])))
    by (vm_compute; reflexivity).
  assert (H1 : headers r !! "ETag" = Some "W/abc") by (vm_compute; reflexivity).
  assert (H2 : headers r !! "X-RateLimit-Remaining" = Some "4999") by (vm_compute; reflexivity).
  assert (H3 : headers r !! "X-RateLimit-Limit" = Some "5000") by (vm_compute; reflexivity).
  destruct (response_etag_stripped verbose ∅ (always r) demo_json_loads "u" None "W/old" 3
              [] _ r "W/abc" "4999" "5000" Hget H1 H2 H3) as (_ & _ & _ & H200 & _).
  exact (H200 eq_refl (PDict []) eq_refl).
Defined.

(** C2 as stated fails: an etag that the caller supplies with the [W/]
    marker is sent with it. *)
Lemma input_etag_sent_with_marker :
  let r := full_response 304 "W/abc" "" in
  let run := request_github_api quiet ∅ (always r) demo_json_loads "u" None "W/abc" 3 [] in
  map (fun q => h ← get_headers q; h !! "If-None-Match") (sent (snd run)) = [Some "W/abc"] /\
  map (fun q => h ← get_headers q; h !! "If-None-Match") (sent (snd run)) <> [Some "abc"].
Proof. vm_compute. split; [reflexivity | discriminate]. Qed.

(** C3, as the code has it: when the response carries the ETag header and
    both rate-limit headers, the pair of their values is reported to the
    sink exactly once, whatever the status and whatever the decoder does
    with the body. *)
Theorem rate_limit_reported (consts : constants) (environ : gmap string string)
    (transport : nat -> get_request -> get_outcome) (json_loads : string -> exn + pyjson)
    (url : string) (params : option (gmap string string)) (etag : string) (retries : Z)
    (t t1 : trace) (r : Response) (e rem lim : string) :
  request_get consts transport url (Some (api_headers environ etag)) params retries t
    = (Return (Some r), t1) ->
  headers r !! "ETag" = Some e ->
  headers r !! "X-RateLimit-Remaining" = Some rem ->
  headers r !! "X-RateLimit-Limit" = Some lim ->
  reports (snd (request_github_api consts environ transport json_loads url params etag
                  retries t))
    = reports t ++ [EvRecordRateLimit rem lim].
Proof.
  intros Hget H1 H2 H3.
  rewrite (request_github_api_after_get _ _ _ _ _ _ _ _ _ _ _ Hget).
  destruct (request_get_returned _ _ _ _ _ _ _ _ _ Hget) as (Hr & _ & _).
  destruct (status_cases r) as [Hs|[Hs|[Hs Hs']]].
  - rewrite (interpret_304 _ _ _ _ _ _ _ _ _ _ H1 H2 H3 Hs). trace_facts.
    rewrite Hr. reflexivity.
  - rewrite (interpret_200 _ _ _ _ _ _ _ _ _ _ H1 H2 H3 Hs). trace_facts.
    rewrite Hr, app_nil_r. reflexivity.
  - rewrite (interpret_other _ _ _ _ _ _ _ _ _ _ H1 H2 H3 Hs Hs'). trace_facts.
    rewrite Hr. reflexivity.
Qed.

Lemma rate_limit_reported_witness :
  let r := full_response 500 "abc" "oops" in
  let run := request_github_api quiet ∅ (always r) demo_json_loads "u" None "" 3 [] in
  fst run = Raise (unexpected_status r) /\
  reports (snd run) = [EvRecordRateLimit "4999" "5000"].
Proof.
  intros r run.
  assert (Hget : request_get quiet (always r) "u" (Some (api_headers ∅ "")) None 3 []
                 = (Return (Some r), [EvGet (GetRequest "u" None (Some (api_headers ∅ "")))]))
    by (vm_compute; reflexivity).
  assert (H1 : headers r !! "ETag" = Some "abc") by (vm_compute; reflexivity).
  assert (H2 : headers r !! "X-RateLimit-Remaining" = Some "4999") by (vm_compute; reflexivity).
  assert (H3 : headers r !! "X-RateLimit-Limit" = Some "5000") by (vm_compute; reflexivity).
  split; [vm_compute; reflexivity|].
  exact (rate_limit_reported quiet ∅ (always r) demo_json_loads "u" None "" 3
           [] _ r "abc" "4999" "5000" Hget H1 H2 H3).
Defined.

(** C3 as stated fails: a response that has both rate-limit headers but no
    ETag header is received and nothing is reported to the sink. *)
Lemma rate_limit_unreported_without_etag :
  let r := untagged_response 200 "{}" in
  let run := request_github_api quiet ∅ (always r) demo_json_loads "u" None "" 3 [] in
  headers r !! "X-RateLimit-Remaining" = Some "4999" /\
  headers r !! "X-RateLimit-Limit" = Some "5000" /\
  gets (snd run) = 1%nat /\
  fst run = Raise (Exn KeyError (EKey "etag")) /\
  reports (snd run) = [].
Proof. vm_compute. repeat split. Qed.

(** C8: when the response has no ETag header the call fails, whatever the
    status code: it logs one error record with the URL, the params, the
    status code and the body, raises the [KeyError] of the lookup, and
    makes no further GET attempt. *)
Theorem missing_etag_fails (consts : constants) (environ : gmap string string)
    (transport : nat -> get_request -> get_outcome) (json_loads : string -> exn + pyjson)
    (url : string) (params : option (gmap string string)) (etag : string) (retries : Z)
    (t t1 : trace) (r : Response) :
  request_get consts transport url (Some (api_headers environ etag)) params retries t
    = (Return (Some r), t1) ->
  headers r !! "ETag" = None ->
  let run := request_github_api consts environ transport json_loads url params etag retries t in
  fst run = Raise (Exn KeyError (EKey "etag")) /\
  snd run = t1 ++ [EvLogError
                     (Fmt "No ETag in response! url={}, params={} status_code={}, content={}"
                          [AStr url; AParams params;
                           AInt (status_code r); ABytes (content r)])] /\
  gets (snd run) = gets t1.
Proof.
  intros Hget H1 run. subst run.
  rewrite (request_github_api_after_get _ _ _ _ _ _ _ _ _ _ _ Hget).
  rewrite (interpret_no_etag _ _ _ _ _ _ _ H1).
  split; [reflexivity|]. split; [reflexivity|].
  cbn [snd]. rewrite gets_app. cbn. lia.
Qed.

Lemma missing_etag_fails_witness :
  let r := untagged_response 304 "" in
  let run := request_github_api verbose ∅ (failing_first [connection_refused] r)
               demo_json_loads "u" None "abc" 3 [] in
  fst run = Raise (Exn KeyError (EKey "etag")) /\ gets (snd run) = 2%nat.
Proof.
  intros r run.
  assert (Hget : request_get verbose (failing_first [connection_refused] r) "u"
                   (Some (api_headers ∅ "abc")) None 3 []
                 = (Return (Some r),
                    snd (request_get verbose (failing_first [connection_refused] r) "u"
                           (Some (api_headers ∅ "abc")) None 3 [])))
    by (vm_compute; reflexivity).
  assert (H1 : headers r !! "ETag" = None) by (vm_compute; reflexivity).
  destruct (missing_etag_fails verbose ∅ (failing_first [connection_refused] r)
              demo_json_loads "u" None "abc" 3 [] _ r Hget H1) as (Hres & _ & Hgets).
  subst run. split; [exact Hres|]. rewrite Hgets. vm_compute. reflexivity.
Defined.

(** C10: when the response carries the ETag header but lacks the
    [X-RateLimit-Remaining] or the [X-RateLimit-Limit] header, the call
    raises the [KeyError] of the first missing one, whatever the status
    code; nothing is reported, logged or decoded after the response. *)
Theorem missing_rate_limit_header_raises (consts : constants) (environ : gmap string string)
    (transport : nat -> get_request -> get_outcome) (json_loads : string -> exn + pyjson)
    (url : string) (params : option (gmap string string)) (etag : string) (retries : Z)
    (t t1 : trace) (r : Response) (e : string) :
  request_get consts transport url (Some (api_headers environ etag)) params retries t
    = (Return (Some r), t1) ->
  headers r !! "ETag" = Some e ->
  headers r !! "X-RateLimit-Remaining" = None \/ headers r !! "X-RateLimit-Limit" = None ->
  let run := request_github_api consts environ transport json_loads url params etag retries t in
  snd run = t1 /\
  fst run = Raise (Exn KeyError
                     (EKey (match headers r !! "X-RateLimit-Remaining" with
                            | None => "x-ratelimit-remaining"
                            | Some _ => "x-ratelimit-limit"
                            end))).
Proof.
  intros Hget H1 Hmiss run. subst run.
  rewrite (request_github_api_after_get _ _ _ _ _ _ _ _ _ _ _ Hget).
  destruct (headers r !! "X-RateLimit-Remaining") as [rem|] eqn:H2.
  - destruct Hmiss as [Hm|Hm]; [discriminate|].
    rewrite (interpret_no_limit _ _ _ _ _ _ _ _ _ H1 H2 Hm). split; reflexivity.
  - rewrite (interpret_no_remaining _ _ _ _ _ _ _ _ H1 H2). split; reflexivity.
Qed.

Lemma missing_rate_limit_header_raises_witness :
  let r := mkResponse 200 {[ "ETag" := "abc"; "X-RateLimit-Remaining" := "7" ]} "{}" in
  let run := request_github_api verbose ∅ (always r) demo_json_loads "u" None "" 3 [] in
  fst run = Raise (Exn KeyError (EKey "x-ratelimit-limit")) /\
  reports (snd run) = [] /\ json_calls (snd run) = [].
Proof.
  intros r run.
  assert (Hget : request_get verbose (always r) "u" (Some (api_headers ∅ "")) None 3 []
                 = (Return (Some r),
                    snd (request_get verbose (always r) "u"
                           (Some (api_headers ∅ "")) None 3 [])))
    by (vm_compute; reflexivity).
  assert (H1 : headers r !! "ETag" = Some "abc") by (vm_compute; reflexivity).
  assert (H3 : headers r !! "X-RateLimit-Remaining" = None
               \/ headers r !! "X-RateLimit-Limit" = None)
    by (right; vm_compute; reflexivity).
  destruct (missing_rate_limit_header_raises verbose ∅ (always r) demo_json_loads "u" None
              "" 3 [] _ r "abc" Hget H1 H3) as (Htrace & Hres).
  subst run. split; [rewrite Hres; vm_compute; reflexivity|].
  rewrite Htrace. vm_compute. split; reflexivity.
Defined.

(** ** Strings *)

Lemma append_cons (a : ascii) (s t : string) : String a s +:+ t = String a (s +:+ t).
Proof. reflexivity. Qed.

Lemma append_nil_l (t : string) : "" +:+ t = t.
Proof. reflexivity. Qed.

Lemma append_nil_r (s : string) : s +:+ "" = s.
Proof.
  induction s as [|a s IH]; [reflexivity|]. rewrite append_cons, IH. reflexivity.
Qed.

Lemma append_assoc (s t u : string) : (s +:+ t) +:+ u = s +:+ (t +:+ u).
Proof.
  induction s as [|a s IH]; [reflexivity|]. rewrite !append_cons, IH. reflexivity.
Qed.

Lemma startswith_app (s p : string) :
  startswith s p = true <-> exists rest, s = p +:+ rest.
Proof.
  revert s. induction p as [|b p IH]; intros s; cbn [startswith].
  - split; [intros _; exists s; reflexivity | reflexivity].
  - destruct s as [|a s].
    + split; [discriminate | intros [rest H]; rewrite append_cons in H; discriminate].
    + rewrite andb_true_iff, Ascii.eqb_eq, IH. split.
      * intros [-> [rest ->]]. exists rest. reflexivity.
      * intros [rest H]. rewrite append_cons in H. injection H as -> ->.
        split; [reflexivity | exists rest; reflexivity].
Qed.

Lemma take_skip_word (s : string) : s = take_word s +:+ skip_word s.
Proof.
  induction s as [|a s IH]; [reflexivity|]. cbn [take_word skip_word].
  destruct (is_word a); [|reflexivity]. rewrite append_cons, <- IH. reflexivity.
Qed.

Lemma all_word_take_word (s : string) : all_word (take_word s) = true.
Proof.
  induction s as [|a s IH]; [reflexivity|]. cbn [take_word].
  destruct (is_word a) eqn:E; [|reflexivity]. cbn [all_word]. rewrite E, IH. reflexivity.
Qed.

Lemma skip_word_app (w s : string) :
  all_word w = true -> skip_word (w +:+ s) = skip_word s.
Proof.
  induction w as [|a w IH]; [reflexivity|]. cbn [all_word].
  rewrite andb_true_iff. intros [Ha Hw]. rewrite append_cons. cbn [skip_word].
  rewrite Ha. apply IH, Hw.
Qed.

(** ** The pattern and the three classes of URL *)

(** The matcher decides [^\w+://]. *)
Lemma pattern_match_spec (url : string) :
  pattern_match url = true <-> scheme_qualified url.
Proof.
  split.
  - destruct url as [|a s']; [discriminate|]. cbn [pattern_match].
    rewrite andb_true_iff, startswith_app. intros [Ha [rest Hrest]].
    exists (String a (take_word s')), rest.
    split; [discriminate|]. split.
    + cbn [all_word]. rewrite Ha, all_word_take_word. reflexivity.
    + rewrite append_cons, <- Hrest, <- take_skip_word. reflexivity.
  - intros (w & rest & Hne & Hw & ->). destruct w as [|a w]; [congruence|].
    cbn [all_word] in Hw. apply andb_true_iff in Hw as [Ha Hw].
    rewrite append_cons. cbn [pattern_match]. rewrite Ha, skip_word_app by exact Hw.
    apply startswith_app. exists rest. reflexivity.
Qed.

Lemma pattern_match_app (base rest : string) :
  pattern_match base = true -> pattern_match (base +:+ rest) = true.
Proof.
  rewrite !pattern_match_spec. intros (w & r & Hne & Hw & ->).
  exists w, (r +:+ rest). split; [exact Hne|]. split; [exact Hw|].
  rewrite !append_assoc. reflexivity.
Qed.

Lemma untouched_spec (url : string) :
  untouched url = true <-> url = "" \/ url = "." \/ startswith url "#" = true.
Proof.
  unfold untouched. rewrite !orb_true_iff, !String.eqb_eq. tauto.
Qed.

Lemma rewrite_url_absolute (url base : string) :
  pattern_match url = true -> rewrite_url url base = url.
Proof. intros H. unfold rewrite_url. rewrite H. reflexivity. Qed.

Lemma rewrite_url_untouched (url base : string) :
  untouched url = true -> rewrite_url url base = url.
Proof.
  intros H. unfold rewrite_url. rewrite H. destruct (pattern_match url); reflexivity.
Qed.

Lemma rewrite_url_relative (url base : string) :
  pattern_match url = false -> untouched url = false ->
  rewrite_url url base = base +:+ "/" +:+ url.
Proof. intros H1 H2. unfold rewrite_url. rewrite H1, H2. reflexivity. Qed.


(** What [rstrip] removes is a run of the character, and what it leaves
    does not end with the character. *)
Lemma rstrip_spec (c : ascii) (s : string) :
  (exists n, s = rstrip c s +:+ copies n c) /\
  (forall s', rstrip c s <> s' +:+ String c "").
Proof.
  induction s as [|a s [[n Hn] Hend]].
  - split; [exists 0%nat; reflexivity|]. intros [|b s']; discriminate.
  - cbn [rstrip]. destruct (rstrip c s) as [|b r] eqn:E.
    + destruct (Ascii.eqb_spec a c) as [->|Hac].
      * split; [exists (S n); rewrite Hn at 1; reflexivity|].
        intros [|b s']; discriminate.
      * split; [exists n; rewrite Hn at 1; reflexivity|].
        intros [|b [|b' s']]; rewrite ?append_cons, ?append_nil_l; congruence.
    + split; [exists n; rewrite Hn at 1; reflexivity|].
      intros [|b' s'] H; rewrite ?append_cons, ?append_nil_l in H; [discriminate|].
      injection H as _ H. exact (Hend s' H).
Qed.

(** ** The traversal *)

(** Induction on a tree with the property known of every child. *)
Lemma Token_children_ind (P : Token -> Prop)
    (HImage : forall src title children, Forall P children -> P (Image src title children))
    (HLink : forall target title children, Forall P children -> P (Link target title children))
    (HNode : forall kind text children, Forall P children -> P (Node kind text (Some children)))
    (HLeaf : forall kind text, P (Node kind text None))
    (node : Token) : P node.
Proof.
  revert node. fix IH 1. intros node.
  assert (all : forall l : list Token, Forall P l).
  { induction l as [|x l' IHl]; constructor; [apply IH | exact IHl]. }
  destruct node as [src title ch|target title ch|kind text [ch|]].
  - apply HImage, all.
  - apply HLink, all.
  - apply HNode, all.
  - apply HLeaf.
Qed.

Section Traversal.

Variables repos_url raw_url : string.

Lemma urls_children (children : list Token) :
  Forall (fun node => urls (rewrite_children repos_url raw_url node)
                      = map (rewrite_pair repos_url raw_url) (urls node)) children ->
  flat_map urls (map (rewrite_children repos_url raw_url) children)
    = map (rewrite_pair repos_url raw_url) (flat_map urls children).
Proof.
  induction 1 as [|x l Hx _ IH]; [reflexivity|].
  cbn [map flat_map]. rewrite Hx, IH, map_app. reflexivity.
Qed.

(** The URLs of the image and link nodes after the traversal are the URLs
    before it, each rewritten against the base of its kind. *)
Lemma urls_rewrite_children (node : Token) :
  urls (rewrite_children repos_url raw_url node)
    = map (rewrite_pair repos_url raw_url) (urls node).
Proof.
  induction node as [src title ch IH|target title ch IH|kind text ch IH|kind text]
    using Token_children_ind; cbn [rewrite_children urls map].
  - rewrite (urls_children ch IH). reflexivity.
  - rewrite (urls_children ch IH). reflexivity.
  - apply (urls_children ch IH).
  - reflexivity.
Qed.




Lemma skeleton_children (children : list Token) :
  Forall (fun node => skeleton (rewrite_children repos_url raw_url node) = skeleton node)
         children ->
  map skeleton (map (rewrite_children repos_url raw_url) children) = map skeleton children.
Proof.
  induction 1 as [|x l Hx _ IH]; [reflexivity|].
  cbn [map]. rewrite Hx, IH. reflexivity.
Qed.

(** The traversal changes nothing but the [src] of images and the [target]
    of links. *)
Lemma skeleton_rewrite_children (node : Token) :
  skeleton (rewrite_children repos_url raw_url node) = skeleton node.
Proof.
  induction node as [src title ch IH|target title ch IH|kind text ch IH|kind text]
    using Token_children_ind; cbn [rewrite_children skeleton];
    rewrite ?(skeleton_children ch IH); reflexivity.
Qed.

End Traversal.

(** One URL and its rewriting satisfy the rule of the specification. *)
Lemma rewrite_pair_rule (repos_url raw_url : string) (p : node_kind * string) :
  rewrite_rule repos_url raw_url p
    (rewrite_pair (rstrip "/" repos_url) (rstrip "/" raw_url) p).
Proof.
  destruct p as [k u]. unfold rewrite_rule, rewrite_pair. cbn [fst snd].
  split; [reflexivity|]. split; [|split].
  - intros H. apply rewrite_url_absolute, pattern_match_spec, H.
  - intros H. apply rewrite_url_untouched, untouched_spec, H.
  - intros Hq He Hd Hf. rewrite rewrite_url_relative.
    + destruct k; reflexivity.
    + destruct (pattern_match u) eqn:E; [|reflexivity].
      exfalso. apply Hq, pattern_match_spec, E.
    + destruct (untouched u) eqn:E; [|reflexivity].
      apply untouched_spec in E as [E|[E|E]]; congruence.
Qed.

(** ** [rewrite_markdown] *)

(** C5: [rewrite_markdown] serializes the tree it parsed after the
    traversal, and the traversal meets every image node and every link
    node: a URL that matches [^\w+://] is kept, a URL that is empty, [.] or
    begins with [#] is kept, and any other URL [p] becomes [base/p], the
    base being [raw_url] for an image and [repos_url] for a link, either
    one without its trailing slashes. *)
Theorem rewrite_classifies_urls (Document : string -> Token) (render : Token -> string)
    (content repos_url raw_url : string) :
  let doc := Document (replace_crlf content) in
  let doc' := rewrite_children (rstrip "/" repos_url) (rstrip "/" raw_url) doc in
  rewrite_markdown Document render content repos_url raw_url = render doc' /\
  Forall2 (rewrite_rule repos_url raw_url) (urls doc) (urls doc').
Proof.
  intros doc doc'. split; [reflexivity|]. subst doc'.
  rewrite urls_rewrite_children.
  induction (urls doc) as [|p l IH]; cbn [map]; constructor.
  - apply rewrite_pair_rule.
  - exact IH.
Qed.

(** The example of the specification, from the tree of its content. *)
Example rewrite_two_paragraphs :
  urls (rewrite_children (rstrip "/" "https://example.com/repos")
          (rstrip "/" "https://example.com/raw/") two_paragraphs)
  = [(KImage, "https://example.com/raw/1.png"); (KLink, "https://example.com/repos/2.md")].
Proof. vm_compute. reflexivity. Qed.









(** The same at the level of the tree, whatever the parser and the
    serializer are. *)
Lemma rewrite_children_twice_differs :
  let doc := one_paragraph (Link "2.md" "" [Node "RawText" "b" None]) in
  let once := rewrite_children "example.com/repos" "example.com/raw" doc in
  rewrite_children "example.com/repos" "example.com/raw" once <> once.
Proof. vm_compute. discriminate. Qed.

(** * Further properties *)

(** ** Slices and occurrences *)

Lemma length_append (a b : string) :
  String.length (a +:+ b) = (String.length a + String.length b)%nat.
Proof.
  induction a as [|c a IH]; [reflexivity|].
  rewrite append_cons. cbn [String.length]. rewrite IH. reflexivity.
Qed.

Lemma slice_from_app (a b : string) : slice_from (String.length a) (a +:+ b) = b.
Proof.
  induction a as [|c a IH]; [destruct b; reflexivity|].
  rewrite append_cons. cbn [String.length slice_from]. exact IH.
Qed.

Lemma slice_to_app (a b : string) : slice_to (String.length a) (a +:+ b) = a.
Proof.
  induction a as [|c a IH]; [destruct b; reflexivity|].
  rewrite append_cons. cbn [String.length slice_to]. rewrite IH. reflexivity.
Qed.

Lemma append_same_length (a a' x y : string) :
  a +:+ x = a' +:+ y -> String.length a = String.length a' -> a = a'.
Proof.
  revert a'. induction a as [|c a IH]; intros [|c' a'] H L; try discriminate L.
  - reflexivity.
  - rewrite !append_cons in H. injection H as -> H. injection L as L.
    rewrite (IH a' H L). reflexivity.
Qed.

Lemma occurs_at_start (text sub : string) :
  startswith text sub = true <-> occurs_at text sub "".
Proof. unfold occurs_at. rewrite startswith_app. reflexivity. Qed.

Lemma occurs_at_cons (c : ascii) (text sub before : string) :
  occurs_at (String c text) sub (String c before) <-> occurs_at text sub before.
Proof.
  unfold occurs_at. split; intros [rest H]; exists rest.
  - rewrite append_cons in H. injection H as H. exact H.
  - rewrite append_cons, <- H. reflexivity.
Qed.

Lemma occurs_at_head (c : ascii) (text sub before : string) :
  occurs_at (String c text) sub before ->
  before = "" \/ exists before', before = String c before' /\ occurs_at text sub before'.
Proof.
  intros H. destruct before as [|c' before']; [left; reflexivity|]. right.
  assert (c' = c) as ->.
  { destruct H as [rest H]. rewrite append_cons in H. injection H as -> _. reflexivity. }
  exists before'. split; [reflexivity|]. apply (occurs_at_cons c), H.
Qed.

Lemma occurs_at_empty (sub before : string) : occurs_at "" sub before -> before = "".
Proof. intros [rest H]. destruct before; [reflexivity | discriminate H]. Qed.

(** [find] gives the first occurrence. *)
Lemma find_spec (text sub : string) :
  (find text sub = -1 /\ forall before, ~ occurs_at text sub before) \/
  (exists before, occurs_at text sub before /\
     find text sub = Z.of_nat (String.length before) /\
     forall before', occurs_at text sub before' ->
       (String.length before <= String.length before')%nat).
Proof.
  induction text as [|c text IH]; cbn [find].
  - destruct (startswith "" sub) eqn:E.
    + right. exists "". split; [apply occurs_at_start, E|].
      split; [reflexivity | intros; cbn; lia].
    + left. split; [reflexivity|]. intros before H.
      pose proof (occurs_at_empty _ _ H) as ->.
      apply occurs_at_start in H. congruence.
  - destruct (startswith (String c text) sub) eqn:E.
    + right. exists "". split; [apply occurs_at_start, E|].
      split; [reflexivity | intros; cbn; lia].
    + destruct IH as [[Hf Hn]|(b & Hb & Hf & Hmin)]; rewrite Hf; cbn zeta.
      * left. split; [reflexivity|]. intros before H.
        destruct (occurs_at_head _ _ _ _ H) as [->|(b' & -> & H')].
        -- apply occurs_at_start in H. congruence.
        -- exact (Hn b' H').
      * destruct (Z.ltb_spec (Z.of_nat (String.length b)) 0) as [?|_]; [lia|].
        right. exists (String c b). split; [apply occurs_at_cons, Hb|].
        split; [cbn [String.length]; lia|]. intros before' H.
        destruct (occurs_at_head _ _ _ _ H) as [->|(b' & -> & H')].
        -- apply occurs_at_start in H. congruence.
        -- cbn [String.length]. specialize (Hmin b' H'). lia.
Qed.

(** [rfind] gives the last occurrence. *)
Lemma rfind_spec (text sub : string) :
  (rfind text sub = -1 /\ forall before, ~ occurs_at text sub before) \/
  (exists before, occurs_at text sub before /\
     rfind text sub = Z.of_nat (String.length before) /\
     forall before', occurs_at text sub before' ->
       (String.length before' <= String.length before)%nat).
Proof.
  induction text as [|c text IH]; cbn [rfind].
  - destruct (startswith "" sub) eqn:E.
    + right. exists "". split; [apply occurs_at_start, E|].
      split; [reflexivity|]. intros before' H.
      rewrite (occurs_at_empty _ _ H). cbn. lia.
    + left. split; [reflexivity|]. intros before H.
      pose proof (occurs_at_empty _ _ H) as ->.
      apply occurs_at_start in H. congruence.
  - destruct IH as [[Hf Hn]|(b & Hb & Hf & Hmax)]; rewrite Hf; cbn zeta.
    + cbn [Z.ltb Z.compare]. destruct (startswith (String c text) sub) eqn:E.
      * right. exists "". split; [apply occurs_at_start, E|].
        split; [reflexivity|]. intros before' H.
        destruct (occurs_at_head _ _ _ _ H) as [->|(b' & -> & H')]; [cbn; lia|].
        destruct (Hn b' H').
      * left. split; [reflexivity|]. intros before H.
        destruct (occurs_at_head _ _ _ _ H) as [->|(b' & -> & H')].
        -- apply occurs_at_start in H. congruence.
        -- exact (Hn b' H').
    + destruct (Z.ltb_spec (Z.of_nat (String.length b)) 0) as [?|_]; [lia|].
      right. exists (String c b). split; [apply occurs_at_cons, Hb|].
      split; [cbn [String.length]; lia|]. intros before' H.
      destruct (occurs_at_head _ _ _ _ H) as [->|(b' & -> & H')]; [cbn; lia|].
      cbn [String.length]. specialize (Hmax b' H'). lia.
Qed.

(** ** [remove_prefix] and [remove_suffix] *)

(** X1: [remove_prefix] leaves the text as it is when the prefix does not
    occur in it; otherwise it drops everything up to the end of the first
    occurrence of the prefix, wherever in the text that occurrence is. *)
Theorem remove_prefix_first_occurrence (text prefix : string) :
  ((forall before, ~ occurs_at text prefix before) /\ remove_prefix text prefix = text) \/
  (exists before rest,
     text = before +:+ prefix +:+ rest /\
     (forall before', occurs_at text prefix before' ->
        (String.length before <= String.length before')%nat) /\
     remove_prefix text prefix = rest).
Proof.
  unfold remove_prefix.
  destruct (find_spec text prefix) as [[Hf Hn]|(b & [rest Hb] & Hf & Hmin)]; rewrite Hf;
    cbn zeta.
  - left. split; [exact Hn | reflexivity].
  - right. exists b, rest. split; [exact Hb|]. split; [exact Hmin|].
    destruct (Z.leb_spec 0 (Z.of_nat (String.length b))) as [_|?]; [|lia].
    rewrite <- Nat2Z.inj_add, Nat2Z.id, <- length_append.
    rewrite Hb, <- append_assoc. apply slice_from_app.
Qed.

(** X2: a text that begins with the prefix loses exactly that prefix. *)
Theorem remove_prefix_leading (prefix rest : string) :
  remove_prefix (prefix +:+ rest) prefix = rest.
Proof.
  assert (Hs : startswith (prefix +:+ rest) prefix = true)
    by (apply startswith_app; exists rest; reflexivity).
  assert (Hf : find (prefix +:+ rest) prefix = 0)
    by (destruct (prefix +:+ rest); cbn [find]; rewrite Hs; reflexivity).
  unfold remove_prefix. rewrite Hf. cbn zeta.
  change (0 <=? 0)%Z with true. cbn iota. rewrite Z.add_0_l, Nat2Z.id.
  apply slice_from_app.
Qed.

(** X3: [remove_suffix] leaves the text as it is when the suffix does not
    occur in it; otherwise it keeps what comes before the last occurrence of
    the suffix and drops that occurrence with everything after it. *)
Theorem remove_suffix_last_occurrence (text suffix : string) :
  ((forall before, ~ occurs_at text suffix before) /\ remove_suffix text suffix = text) \/
  (exists before rest,
     text = before +:+ suffix +:+ rest /\
     (forall before', occurs_at text suffix before' ->
        (String.length before' <= String.length before)%nat) /\
     remove_suffix text suffix = before).
Proof.
  unfold remove_suffix.
  destruct (rfind_spec text suffix) as [[Hf Hn]|(b & [rest Hb] & Hf & Hmax)]; rewrite Hf;
    cbn zeta.
  - left. split; [exact Hn | reflexivity].
  - right. exists b, rest. split; [exact Hb|]. split; [exact Hmax|].
    destruct (Z.leb_spec 0 (Z.of_nat (String.length b))) as [_|?]; [|lia].
    rewrite Nat2Z.id, Hb. apply slice_to_app.
Qed.

(** X4: a text that ends with the suffix loses exactly that suffix. *)
Theorem remove_suffix_trailing (text suffix : string) :
  remove_suffix (text +:+ suffix) suffix = text.
Proof.
  destruct (remove_suffix_last_occurrence (text +:+ suffix) suffix)
    as [[Hn _]|(b & rest & Hb & Hmax & ->)].
  - destruct (Hn text). exists "". rewrite append_nil_r. reflexivity.
  - assert (Hle : (String.length text <= String.length b)%nat).
    { apply Hmax. exists "". rewrite append_nil_r. reflexivity. }
    assert (Hlen : String.length (text +:+ suffix)
                   = String.length (b +:+ suffix +:+ rest)) by (rewrite <- Hb; reflexivity).
    rewrite !length_append in Hlen.
    symmetry. apply (append_same_length text b suffix (suffix +:+ rest) Hb). lia.
Qed.

(** ** [format_markdown] *)

Lemma replace_char_app (c : ascii) (new x y : string) :
  replace_char c new (x +:+ y) = replace_char c new x +:+ replace_char c new y.
Proof.
  induction x as [|a x IH]; [reflexivity|].
  rewrite append_cons. cbn [replace_char]. rewrite IH.
  destruct (Ascii.eqb a c); [rewrite append_assoc|rewrite append_cons]; reflexivity.
Qed.

Lemma escaped_passes (a : ascii) :
  replace_char ">" "\>" (replace_char "<" "\<" (replace_char "\" "\\" (String a "")))
  = escaped a.
Proof.
  unfold escaped. cbn [replace_char].
  destruct (Ascii.eqb_spec a "\") as [->|H1]; [reflexivity|].
  cbn [orb replace_char].
  destruct (Ascii.eqb_spec a "<") as [->|H2]; [reflexivity|].
  cbn [orb replace_char].
  destruct (Ascii.eqb_spec a ">") as [->|H3]; reflexivity.
Qed.

(** X5: the three passes of [format_markdown] amount to one pass that puts
    a backslash before every backslash, [<] and [>] of the text and keeps
    every other character; a backslash that an earlier pass added is not
    escaped again. *)
Theorem format_markdown_one_pass (text : string) :
  format_markdown text = escape_all text.
Proof.
  unfold format_markdown. cbn [fold_left].
  induction text as [|a text IH]; [reflexivity|].
  change (String a text) with (String a "" +:+ text).
  rewrite !replace_char_app, IH, escaped_passes. reflexivity.
Qed.

Lemma escape_all_app (a b : string) :
  escape_all (a +:+ b) = escape_all a +:+ escape_all b.
Proof.
  induction a as [|c a IH]; [reflexivity|].
  rewrite append_cons. cbn [escape_all]. rewrite IH, append_assoc. reflexivity.
Qed.

Lemma escape_all_inj (s1 s2 : string) : escape_all s1 = escape_all s2 -> s1 = s2.
Proof.
  revert s2. induction s1 as [|a s1 IH]; intros [|b s2]; cbn [escape_all]; unfold escaped.
  - reflexivity.
  - destruct (_ || _); discriminate.
  - destruct (_ || _); discriminate.
  - destruct (Ascii.eqb a "\" || Ascii.eqb a "<" || Ascii.eqb a ">") eqn:Ea;
      destruct (Ascii.eqb b "\" || Ascii.eqb b "<" || Ascii.eqb b ">") eqn:Eb;
      rewrite !append_cons, !append_nil_l; intros H.
    + injection H as -> H. rewrite (IH s2 H). reflexivity.
    + injection H as <- H. cbn in Eb. discriminate Eb.
    + injection H as -> H. cbn in Ea. discriminate Ea.
    + injection H as -> H. rewrite (IH s2 H). reflexivity.
Qed.

(** X6: [format_markdown] loses nothing: two texts with the same escaped
    form are the same text. *)
Theorem format_markdown_injective (text1 text2 : string) :
  format_markdown text1 = format_markdown text2 -> text1 = text2.
Proof. rewrite !format_markdown_one_pass. apply escape_all_inj. Qed.

Lemma format_markdown_injective_witness :
  format_markdown "a<b" = format_markdown ("a" +:+ "<b") /\ "a<b" = "a" +:+ "<b".
Proof.
  assert (H : format_markdown "a<b" = format_markdown ("a" +:+ "<b")) by reflexivity.
  split; [exact H | exact (format_markdown_injective "a<b" ("a" +:+ "<b") H)].
Defined.

(** X7: escaping a concatenation is concatenating the escaped parts. *)
Theorem format_markdown_app (text1 text2 : string) :
  format_markdown (text1 +:+ text2) = format_markdown text1 +:+ format_markdown text2.
Proof. rewrite !format_markdown_one_pass. apply escape_all_app. Qed.

(** ** [pretty_file_size] *)

Ltac decide_below :=
  repeat match goal with
         | |- context [(?a <? ?b)%Z] => destruct (Z.ltb_spec a b); [try lia | try lia]
         end.

(** X8: a size below 1024, negative sizes included, is shown as the integer
    itself with the unit [B]; a size from [1024^k] up to [1024^(k+1)], for
    [k] from 1 to 4, is shown divided by [1024^k] with the [k]-th of the
    units [KB], [MB], [GB], [TB]. *)
Theorem pretty_file_size_units (str_round2 : number -> string) (size : Z) :
  (size < 1024 -> pretty_file_size str_round2 size = str_round2 (NInt size) +:+ "B") /\
  (forall k, (1 <= k <= 4)%nat ->
     1024 ^ Z.of_nat k <= size < 1024 ^ Z.of_nat (S k) ->
     pretty_file_size str_round2 size
       = str_round2 (NFloat size k) +:+ nth k size_units "").
Proof.
  split.
  - intros H. unfold pretty_file_size, size_units. cbn [pretty_loop below_1024].
    decide_below. reflexivity.
  - intros k Hk H. unfold pretty_file_size, size_units.
    destruct k as [|[|[|[|[|k]]]]]; try lia;
      cbn [pretty_loop below_1024 div_1024];
      change (1024 ^ Z.of_nat 1) with 1024 in *;
      change (1024 ^ Z.of_nat 2) with 1048576 in *;
      change (1024 ^ Z.of_nat 3) with 1073741824 in *;
      change (1024 ^ Z.of_nat 4) with 1099511627776 in *;
      change (1024 ^ Z.of_nat 5) with 1125899906842624 in *;
      decide_below; reflexivity.
Qed.

Lemma pretty_file_size_units_witness :
  pretty_file_size show_number (-5) = "intB" /\
  pretty_file_size show_number 5000000 = "floatMB".
Proof.
  destruct (pretty_file_size_units show_number (-5)) as [H _].
  destruct (pretty_file_size_units show_number 5000000) as [_ H'].
  split; [apply H; lia|]. apply (H' 2%nat); [lia|].
  split; [intros H0; vm_compute in H0; discriminate H0 | vm_compute; reflexivity].
Defined.

(** X9: a size of [1024^5] or more (and below [2^53]) is divided by [1024]
    five times and still shown with the unit [TB]: the number shown is the
    size in units of 1024 TB. *)
Theorem pretty_file_size_beyond_units (str_round2 : number -> string) (size : Z) :
  1024 ^ 5 <= size < 2 ^ 53 ->
  pretty_file_size str_round2 size = str_round2 (NFloat size 5) +:+ "TB".
Proof.
  intros H. unfold pretty_file_size, size_units.
  change (1024 ^ 5) with 1125899906842624 in H.
  cbn [pretty_loop below_1024 div_1024].
  change (1024 ^ Z.of_nat 1) with 1024;
    change (1024 ^ Z.of_nat 2) with 1048576;
    change (1024 ^ Z.of_nat 3) with 1073741824;
    change (1024 ^ Z.of_nat 4) with 1099511627776.
  decide_below. reflexivity.
Qed.

Lemma pretty_file_size_beyond_units_witness :
  pretty_file_size show_number (1024 ^ 5) = "floatTB" /\
  pretty_loop size_units (NInt (1024 ^ 5)) "" = (NFloat (1024 ^ 5) 5, "TB").
Proof.
  split; [|vm_compute; reflexivity].
  apply (pretty_file_size_beyond_units show_number (1024 ^ 5)).
  split; [intros H0; vm_compute in H0; discriminate H0 | vm_compute; reflexivity].
Defined.

(** ** The trace of [request_get] *)

Lemma after_debug_app consts url params retries i (t : trace) :
  after_debug consts url params retries i t
  = t ++ after_debug consts url params retries i [].
Proof.
  unfold after_debug. destruct (DEBUG_REQUEST_GET consts);
    [reflexivity | rewrite app_nil_r; reflexivity].
Qed.

Lemma request_get_for_events consts transport url hdrs params retries (idx : list Z) :
  forall (err : option exn) (t : trace),
    idx <> [] ->
    exists made,
      (1 <= made <= length idx)%nat /\
      snd (request_get_for consts transport url hdrs params retries idx err t)
        = t ++ flat_map (attempt_events consts url hdrs params retries) (firstn made idx).
Proof.
  induction idx as [|i rest IH]; intros err t Hne; [congruence|].
  rewrite request_get_for_cons.
  assert (Hone : after_debug consts url params retries i t
                   ++ [EvGet (GetRequest url params hdrs)]
                 = t ++ attempt_events consts url hdrs params retries i).
  { unfold attempt_events. rewrite after_debug_app, app_assoc. reflexivity. }
  assert (Hfirst : after_debug consts url params retries i t
                     ++ [EvGet (GetRequest url params hdrs)]
                   = t ++ flat_map (attempt_events consts url hdrs params retries)
                           (firstn 1 (i :: rest))).
  { cbn [firstn flat_map]. rewrite app_nil_r. exact Hone. }
  destruct (transport _ _) as [r|e].
  - exists 1%nat. split; [cbn [length]; lia | exact Hfirst].
  - destruct (caught e).
    + destruct rest as [|i' rest'].
      * rewrite request_get_for_nil. exists 1%nat.
        split; [cbn [length]; lia | exact Hfirst].
      * destruct (IH (Some e) (after_debug consts url params retries i t
                                 ++ [EvGet (GetRequest url params hdrs)]))
          as (made & B & Ht); [discriminate|].
        exists (S made). split; [cbn [length] in *; lia|].
        rewrite Ht, Hone. cbn [firstn flat_map]. rewrite <- app_assoc. reflexivity.
    + exists 1%nat. split; [cbn [length]; lia | exact Hfirst].
Qed.

Lemma firstn_range (made : nat) (n : Z) :
  (made <= Z.to_nat n)%nat -> firstn made (range n) = map Z.of_nat (seq 0 made).
Proof.
  intros H. unfold range. rewrite firstn_map. f_equal.
  generalize 0%nat. revert made H. induction (Z.to_nat n) as [|m IH]; intros made H s.
  - assert (made = 0%nat) as -> by lia. reflexivity.
  - destruct made as [|made]; [reflexivity|]. cbn [seq firstn]. rewrite IH by lia.
    reflexivity.
Qed.

(** X10: the events of a call of [request_get] are those of its attempts
    and nothing else: per attempt one GET, preceded by one debug record when
    [DEBUG.REQUEST_GET] is set; the record carries the attempt number
    counted from 1 and the value of [retries] as the caller gave it. *)
Theorem request_get_events (consts : constants)
    (transport : nat -> get_request -> get_outcome)
    (url : string) (hdrs params : option (gmap string string))
    (retries : Z) (t : trace) :
  exists made,
    (1 <= made <= Z.to_nat (Z.max 1 retries))%nat /\
    snd (request_get consts transport url hdrs params retries t)
    = t ++ flat_map
             (fun i =>
                (if DEBUG_REQUEST_GET consts
                 then [EvLogDebug (Fmt (tab +:+ "Requesting {}/{} url={} params={}")
                                       [AInt (i + 1); AInt retries; AStr url; AParams params])]
                 else [])
                ++ [EvGet (GetRequest url params hdrs)])
             (map Z.of_nat (seq 0 made)).
Proof.
  unfold request_get.
  destruct (request_get_for_events consts transport url hdrs params retries
              (range (Z.max 1 retries)) None t (range_nonempty retries))
    as (made & B & Ht).
  rewrite length_range in B. exists made. split; [exact B|].
  rewrite Ht, firstn_range by lia. reflexivity.
Qed.

(** ** [request_github_api]: the network and the request headers *)

Lemma interpret_sent consts json_loads url params etag (r : Response) (t : trace) :
  sent (snd (interpret consts json_loads url params etag r t)) = sent t.
Proof.
  destruct (headers r !! "ETag") as [e|] eqn:H1.
  - destruct (headers r !! "X-RateLimit-Remaining") as [rem|] eqn:H2.
    + destruct (headers r !! "X-RateLimit-Limit") as [lim|] eqn:H3.
      * destruct (status_cases r) as [Hs|[Hs|[Hs Hs']]].
        -- rewrite (interpret_304 _ _ _ _ _ _ _ _ _ _ H1 H2 H3 Hs). trace_facts.
           apply app_nil_r.
        -- rewrite (interpret_200 _ _ _ _ _ _ _ _ _ _ H1 H2 H3 Hs). trace_facts.
           rewrite !app_nil_r. reflexivity.
        -- rewrite (interpret_other _ _ _ _ _ _ _ _ _ _ H1 H2 H3 Hs Hs'). trace_facts.
           apply app_nil_r.
      * rewrite (interpret_no_limit _ _ _ _ _ _ _ _ _ H1 H2 H3). reflexivity.
    + rewrite (interpret_no_remaining _ _ _ _ _ _ _ _ H1 H2). reflexivity.
  - rewrite (interpret_no_etag _ _ _ _ _ _ _ H1). trace_facts. apply app_nil_r.
Qed.

(** X11: every GET of a call of [request_github_api], whatever its outcome,
    carries the same headers: [If-None-Match] with the caller's etag,
    [Authorization] with [token ] and the value of [github_api_token] exactly
    when the environment has that variable, and no other header. *)
Theorem fetch_request_headers (consts : constants) (environ : gmap string string)
    (transport : nat -> get_request -> get_outcome) (json_loads : string -> exn + pyjson)
    (url : string) (params : option (gmap string string)) (etag : string) (retries : Z)
    (t : trace) :
  exists (made : nat) (h : gmap string string),
    (1 <= made)%nat /\
    sent (snd (request_github_api consts environ transport json_loads url params etag
                 retries t))
      = sent t ++ repeat (GetRequest url params (Some h)) made /\
    h !! "If-None-Match" = Some etag /\
    h !! "Authorization" = (fun token => "token " +:+ token) <$> environ !! "github_api_token" /\
    (forall k, k <> "If-None-Match" -> k <> "Authorization" -> h !! k = None).
Proof.
  destruct (request_get_for_run consts transport url (Some (api_headers environ etag)) params
              retries (range (Z.max 1 retries)) None t (range_nonempty retries))
    as (made & _ & Sn & B & _).
  exists made, (api_headers environ etag).
  split; [lia|]. split; [|split; [apply api_headers_if_none_match|split]].
  - unfold request_github_api, bind. fold (request_get consts transport url
      (Some (api_headers environ etag)) params retries) in Sn.
    destruct (request_get consts transport url (Some (api_headers environ etag)) params
                retries t) as [[[r|]|e] t1]; cbn [snd] in *.
    + rewrite interpret_sent. exact Sn.
    + exact Sn.
    + exact Sn.
  - unfold api_headers. destruct (environ !! "github_api_token") as [token|].
    + cbn [fmap option_fmap option_map]. apply lookup_insert_eq.
    + cbn [fmap option_fmap option_map]. apply lookup_singleton_ne. discriminate.
  - intros k Hk1 Hk2. unfold api_headers.
    destruct (environ !! "github_api_token") as [token|].
    + rewrite lookup_insert_ne by congruence. apply lookup_singleton_ne. congruence.
    + apply lookup_singleton_ne. congruence.
Qed.

(** X12: when every one of the [max(1, retries)] attempts fails with a
    [ConnectionError] or an [SSLError], [request_github_api] raises the
    error of the last attempt as it is, after exactly that many GETs, and
    nothing is reported to the rate-limit sink or decoded. *)
Theorem fetch_network_down (consts : constants) (environ : gmap string string)
    (transport : nat -> get_request -> get_outcome) (json_loads : string -> exn + pyjson)
    (url : string) (params : option (gmap string string)) (etag : string) (retries : Z)
    (t : trace) :
  let q := GetRequest url params (Some (api_headers environ etag)) in
  let bound := Z.to_nat (Z.max 1 retries) in
  (forall k, (k < bound)%nat ->
     exists e, transport (gets t + k)%nat q = Fails e /\ caught e = true) ->
  let run := request_github_api consts environ transport json_loads url params etag retries t in
  exists e,
    transport (gets t + (bound - 1))%nat q = Fails e /\
    fst run = Raise e /\
    gets (snd run) = (gets t + bound)%nat /\
    reports (snd run) = reports t /\
    json_calls (snd run) = json_calls t.
Proof.
  intros q bound Hdown run. subst run.
  destruct (request_get_for_run consts transport url (Some (api_headers environ etag)) params
              retries (range (Z.max 1 retries)) None t (range_nonempty retries))
    as (made & G & _ & B & _ & L).
  destruct (request_get_for_quiet consts transport url (Some (api_headers environ etag))
              params retries (range (Z.max 1 retries)) None t) as [Q1 Q2].
  rewrite length_range in B, L. fold bound in B, L. fold q in L.
  destruct (Hdown (made - 1)%nat) as (e & He & Hc); [lia|].
  rewrite He in L. destruct L as [L Hmade]. specialize (Hmade Hc). subst made.
  exists e. split; [exact He|].
  unfold request_github_api, bind, request_get.
  destruct (request_get_for consts transport url (Some (api_headers environ etag)) params
              retries (range (Z.max 1 retries)) None t) as [res t1].
  cbn [fst snd] in *. subst res. cbn [fst snd].
  split; [reflexivity|]. split; [exact G|]. split; [exact Q1 | exact Q2].
Qed.

Lemma fetch_network_down_witness :
  let run := request_github_api quiet ∅
               (failing_first [connection_refused; handshake_failed; connection_refused]
                  (full_response 200 "abc" "{}"))
               demo_json_loads "u" None "" 3 [] in
  fst run = Raise connection_refused /\ gets (snd run) = 3%nat /\ reports (snd run) = [].
Proof.
  intros run.
  destruct (fetch_network_down quiet ∅
              (failing_first [connection_refused; handshake_failed; connection_refused]
                 (full_response 200 "abc" "{}"))
              demo_json_loads "u" None "" 3 []) as (e & He & Hres & Hg & Hr & _).
  - intros k Hk. change (Z.to_nat (Z.max 1 3)) with 3%nat in Hk.
    destruct k as [|[|[|k]]]; [| | |lia].
    + exists connection_refused. split; reflexivity.
    + exists handshake_failed. split; reflexivity.
    + exists connection_refused. split; reflexivity.
  - vm_compute in He. injection He as <-.
    split; [exact Hres|]. split; [exact Hg | exact Hr].
Defined.

(** ** [rewrite_markdown]: line endings, base URLs, what stays *)

Lemma append_empty (a b : string) : a +:+ b = "" -> a = "" /\ b = "".
Proof. destruct a; [intros H; split; [reflexivity | exact H] | discriminate]. Qed.

Lemma replace_crlf_line (l s : string) :
  has_char CR l = false -> replace_crlf (l +:+ s) = l +:+ replace_crlf s.
Proof.
  induction l as [|a l IH]; [reflexivity|]. cbn [has_char].
  intros H. apply orb_false_iff in H as [Ha Hl]. specialize (IH Hl).
  rewrite !append_cons. cbn [replace_crlf].
  destruct (l +:+ s) as [|b x] eqn:E.
  - apply append_empty in E as [-> ->]. reflexivity.
  - rewrite Ha. cbn [andb]. rewrite IH. reflexivity.
Qed.

Lemma replace_crlf_pair (s : string) :
  replace_crlf (String CR (String LF s)) = String LF (replace_crlf s).
Proof. reflexivity. Qed.

Lemma replace_crlf_lf (s : string) :
  replace_crlf (String LF s) = String LF (replace_crlf s).
Proof. cbn [replace_crlf]. destruct s; reflexivity. Qed.

Lemma replace_crlf_join (lines : list string) :
  Forall (fun l => has_char CR l = false) lines ->
  replace_crlf (join_lines (String CR (String LF "")) lines) = join_lines (String LF "") lines
  /\ replace_crlf (join_lines (String LF "") lines) = join_lines (String LF "") lines.
Proof.
  induction 1 as [|l lines Hl _ [IH1 IH2]]; [split; reflexivity|].
  cbn [join_lines]. rewrite !(replace_crlf_line l _ Hl), !append_cons, !append_nil_l.
  rewrite replace_crlf_pair, replace_crlf_lf, IH1, IH2. split; reflexivity.
Qed.

(** X13: a content whose lines end with CR LF and the same lines ending
    with LF give the same output, provided no line holds a CR of its own. *)
Theorem rewrite_markdown_line_endings (Document : string -> Token) (render : Token -> string)
    (lines : list string) (repos_url raw_url : string) :
  Forall (fun l => has_char CR l = false) lines ->
  rewrite_markdown Document render (join_lines (String CR (String LF "")) lines)
    repos_url raw_url
  = rewrite_markdown Document render (join_lines (String LF "") lines) repos_url raw_url.
Proof.
  intros H. unfold rewrite_markdown. cbn zeta.
  destruct (replace_crlf_join lines H) as [-> ->]. reflexivity.
Qed.

Lemma rewrite_markdown_line_endings_witness :
  rewrite_markdown link_Document link_render
    ("[b](2.md)" +:+ String CR (String LF "")) "https://example.com/repos" ""
  = "[b](https://example.com/repos/2.md)" +:+ String LF "".
Proof.
  assert (H : Forall (fun l => has_char CR l = false) ["[b](2.md)"])
    by (constructor; [reflexivity | constructor]).
  change ("[b](2.md)" +:+ String CR (String LF ""))
    with (join_lines (String CR (String LF "")) ["[b](2.md)"]).
  rewrite (rewrite_markdown_line_endings link_Document link_render ["[b](2.md)"]
             "https://example.com/repos" "" H).
  vm_compute. reflexivity.
Defined.

Lemma rstrip_copies_only (c : ascii) (n : nat) : rstrip c (copies n c) = "".
Proof.
  induction n as [|n IH]; [reflexivity|]. cbn [copies rstrip].
  rewrite IH, Ascii.eqb_refl. reflexivity.
Qed.

Lemma rstrip_copies (c : ascii) (s : string) (n : nat) :
  rstrip c (s +:+ copies n c) = rstrip c s.
Proof.
  induction s as [|a s IH]; [apply rstrip_copies_only|].
  rewrite append_cons. cbn [rstrip]. rewrite IH. reflexivity.
Qed.

(** X14: slashes added at the end of either base URL change nothing. *)
Theorem rewrite_markdown_trailing_slashes (Document : string -> Token)
    (render : Token -> string) (content repos_url raw_url : string) (n m : nat) :
  rewrite_markdown Document render content
    (repos_url +:+ copies n "/") (raw_url +:+ copies m "/")
  = rewrite_markdown Document render content repos_url raw_url.
Proof. unfold rewrite_markdown. cbn zeta. rewrite !rstrip_copies. reflexivity. Qed.

(** X15: the traversal keeps the tree but for the URLs: every node keeps
    its kind, title, text and children, and the image and link nodes come
    in the same order. *)
Theorem rewrite_children_frame (repos_url raw_url : string) (node : Token) :
  skeleton (rewrite_children repos_url raw_url node) = skeleton node /\
  map fst (urls (rewrite_children repos_url raw_url node)) = map fst (urls node).
Proof.
  split; [apply skeleton_rewrite_children|].
  rewrite urls_rewrite_children, map_map. reflexivity.
Qed.

Lemma rewrite_url_changes (url base : string) :
  rewrite_url url base <> url <-> pattern_match url = false /\ untouched url = false.
Proof.
  unfold rewrite_url. destruct (pattern_match url); cbn [negb].
  - split; [congruence | intros [? _]; discriminate].
  - destruct (untouched url).
    + split; [congruence | intros [_ ?]; discriminate].
    + split; [intros _; split; reflexivity|]. intros _ H.
      apply (f_equal String.length) in H. rewrite !length_append in H.
      cbn [String.length] in H. lia.
Qed.

Lemma rewrite_log_children (repos_url raw_url : string) (children : list Token) :
  Forall (fun node => rewrite_children_log repos_url raw_url node
                      = flat_map (fun p => rewrite_url_log repos_url (snd p)
                                             (base_of repos_url raw_url (fst p)))
                                 (urls node)) children ->
  flat_map (rewrite_children_log repos_url raw_url) children
  = flat_map (fun p => rewrite_url_log repos_url (snd p)
                         (base_of repos_url raw_url (fst p)))
             (flat_map urls children).
Proof.
  induction 1 as [|x l Hx _ IH]; [reflexivity|].
  cbn [flat_map]. rewrite Hx, IH, flat_map_app. reflexivity.
Qed.

(** X16: the traversal logs one record for every image or link URL it
    changes and none for a URL it keeps, in the order of the nodes; the
    record holds [repos_url] (for an image too), the old URL and the new
    one. *)
Theorem rewrite_children_log_records (repos_url raw_url : string) (node : Token) :
  rewrite_children_log repos_url raw_url node
  = flat_map
      (fun p =>
         let new := rewrite_url (snd p) (base_of repos_url raw_url (fst p)) in
         if String.eqb new (snd p) then []
         else [EvLogInfo (Fmt "URL rewritten for {!r}: {!r} -> {!r}"
                              [ARepr repos_url; ARepr (snd p); ARepr new])])
      (urls node).
Proof.
  transitivity (flat_map (fun p => rewrite_url_log repos_url (snd p)
                                     (base_of repos_url raw_url (fst p))) (urls node)).
  - induction node as [src title ch IH|target title ch IH|kind text ch IH|kind text]
      using Token_children_ind; cbn [rewrite_children_log urls flat_map base_of fst snd].
    + rewrite (rewrite_log_children _ _ ch IH). reflexivity.
    + rewrite (rewrite_log_children _ _ ch IH). reflexivity.
    + apply (rewrite_log_children _ _ ch IH).
    + reflexivity.
  - apply flat_map_ext. intros [k u]. cbn [fst snd]. cbn zeta.
    unfold rewrite_url_log.
    destruct (String.eqb_spec (rewrite_url u (base_of repos_url raw_url k)) u) as [E|E].
    + destruct (pattern_match u) eqn:Hp; [reflexivity|].
      destruct (untouched u) eqn:Hu; [reflexivity|].
      exfalso. revert E. apply rewrite_url_changes. split; assumption.
    + apply rewrite_url_changes in E as [Hp Hu]. rewrite Hp, Hu. cbn [negb andb].
      rewrite (rewrite_url_relative _ _ Hp Hu). reflexivity.
Qed.

(** X17: a URL whose first character is neither a word character nor [#],
    and which is not [.], is taken for a relative path: a root-relative
    [/x] or a protocol-relative [//host/x] gets the base and a slash put
    before it. *)
Theorem rewrite_url_leading_nonword (a : ascii) (rest base : string) :
  is_word a = false -> a <> "#"%char -> String a rest <> "." ->
  rewrite_url (String a rest) base = base +:+ "/" +:+ String a rest.
Proof.
  intros Hw Hh Hd. apply rewrite_url_relative.
  - cbn [pattern_match]. rewrite Hw. reflexivity.
  - destruct (untouched (String a rest)) eqn:E; [|reflexivity].
    apply untouched_spec in E as [E|[E|E]]; [discriminate | contradiction |].
    cbn [startswith] in E. apply andb_true_iff in E as [E _].
    apply Ascii.eqb_eq in E. contradiction.
Qed.

Lemma rewrite_url_leading_nonword_witness :
  rewrite_url "//cdn.example.com/x.png" "https://example.com/raw"
  = "https://example.com/raw///cdn.example.com/x.png".
Proof.
  apply (rewrite_url_leading_nonword "/" "/cdn.example.com/x.png" "https://example.com/raw");
    [reflexivity | discriminate | discriminate].
Defined.

(** X18: a URL made of a scheme and a colon that is not followed by two
    slashes, such as a [mailto:] link, does not match the pattern and gets
    the base and a slash put before it. *)
Theorem rewrite_url_scheme_without_slashes (w rest base : string) :
  w <> "" -> all_word w = true -> startswith rest "//" = false ->
  rewrite_url (w +:+ ":" +:+ rest) base = base +:+ "/" +:+ w +:+ ":" +:+ rest.
Proof.
  intros Hne Hw Hr. destruct w as [|a w]; [congruence|].
  cbn [all_word] in Hw. apply andb_true_iff in Hw as [Ha Hw].
  apply rewrite_url_relative.
  - rewrite append_cons. cbn [pattern_match]. rewrite Ha, skip_word_app by exact Hw.
    cbn [andb]. rewrite append_cons, append_nil_l.
    change (skip_word (String ":" rest)) with (String ":" rest).
    change (startswith (String ":" rest) "://")
      with (Ascii.eqb ":" ":" && startswith rest "//").
    rewrite Ascii.eqb_refl. exact Hr.
  - rewrite append_cons.
    destruct (untouched (String a (w +:+ ":" +:+ rest))) eqn:E; [|reflexivity].
    apply untouched_spec in E as [E|[E|E]].
    + discriminate.
    + injection E as -> _. discriminate Ha.
    + cbn [startswith] in E. apply andb_true_iff in E as [E _].
      apply Ascii.eqb_eq in E. subst a. discriminate Ha.
Qed.

Lemma rewrite_url_scheme_without_slashes_witness :
  rewrite_url "mailto:someone@example.com" "https://example.com/repos"
  = "https://example.com/repos/mailto:someone@example.com".
Proof.
  apply (rewrite_url_scheme_without_slashes "mailto" "someone@example.com"
           "https://example.com/repos"); [discriminate | reflexivity | reflexivity].
Defined.

(** X19: when both base URLs, their trailing slashes stripped, match the
    pattern, no relative URL is left in the tree that [rewrite_markdown]
    serializes: every image and link URL matches the pattern or is empty,
    [.] or a fragment. *)
Theorem rewrite_markdown_leaves_no_relative (Document : string -> Token)
    (content repos_url raw_url : string) :
  pattern_match (rstrip "/" repos_url) = true ->
  pattern_match (rstrip "/" raw_url) = true ->
  Forall (fun p => pattern_match (snd p) = true \/ untouched (snd p) = true)
         (urls (rewrite_children (rstrip "/" repos_url) (rstrip "/" raw_url)
                  (Document (replace_crlf content)))).
Proof.
  intros Hr Hw. rewrite urls_rewrite_children. apply List.Forall_forall.
  intros p Hin. apply in_map_iff in Hin as ([k u] & <- & _).
  unfold rewrite_pair. cbn [fst snd].
  destruct (pattern_match u) eqn:Hp.
  - rewrite (rewrite_url_absolute _ _ Hp). left. exact Hp.
  - destruct (untouched u) eqn:Hu.
    + rewrite (rewrite_url_untouched _ _ Hu). right. exact Hu.
    + rewrite (rewrite_url_relative _ _ Hp Hu). left.
      apply pattern_match_app. destruct k; assumption.
Qed.

Lemma rewrite_markdown_leaves_no_relative_witness :
  Forall (fun p => pattern_match (snd p) = true \/ untouched (snd p) = true)
         (urls (rewrite_children (rstrip "/" "https://example.com/repos/")
                  (rstrip "/" "https://example.com/raw")
                  (link_Document (replace_crlf ("[b](2.md)" +:+ String LF ""))))).
Proof.
  apply (rewrite_markdown_leaves_no_relative link_Document ("[b](2.md)" +:+ String LF "")
           "https://example.com/repos/" "https://example.com/raw"); reflexivity.
Defined.
